(** * Cpp-stacktrace: a shallow embedding of [Cpp-stacktrace.hpp]

    The header prints a stack trace when a fatal signal arrives or when the
    program calls [CRITICAL], resolving every return address through an
    [addr2line] subprocess.  This development models the non-Apple build
    ([#ifdef __APPLE__] not taken).

    Conventions.
    - C strings and the bytes read from a pipe are [list ascii]; string
      literals of the source are written [str "..."].
    - [int] values are [Z]: the only arithmetic of the source is
      [nptrs - 2 - i - 1] and [i + 1] with [0 <= nptrs <= 64], far from
      wrap-around.
    - A [void*] is the [Z] holding the address.
    - [std::cerr] is the list of records written so far, one record per
      output statement of the source (each of them ends in [std::endl] or
      [std::flush]); the text on the terminal is their concatenation.
    - Everything the header obtains from libc or from the operating system
      (the call stack, [backtrace_symbols], the subprocess behind [popen],
      how a pointer is rendered) is a field of [platform]. *)

From Stdlib Require Import ZArith Lia Bool Ascii String List.
From Stdlib Require DecimalString HexadecimalString.
Import ListNotations.
Local Open Scope Z_scope.

Set Implicit Arguments.

(** ** Characters and strings *)

Definition str (s : string) : list ascii := list_ascii_of_string s.

Definition NUL : ascii := "000"%char.
Definition LF : ascii := "010"%char.      (* '\n' *)
Definition CR : ascii := "013"%char.      (* '\r' *)
Definition SLASH : ascii := "/"%char.
Definition QMARK : ascii := "?"%char.

(** [std::endl]: a newline (and a flush, which ends the record). *)
Definition endl : list ascii := [LF].

(** [operator<<(int)] and [CriticalException::itos]: decimal rendering. *)
Definition itos (i : Z) : list ascii :=
  str (DecimalString.NilZero.string_of_int (Z.to_int i)).

(** The bytes of a C string stored at the start of a character array: all
    characters before the first NUL. *)
Fixpoint cstr (b : list ascii) : list ascii :=
  match b with
  | [] => []
  | c :: t => if Ascii.eqb c NUL then [] else c :: cstr t
  end.

(** printf's [%.256s]: at most 256 characters of the argument; glibc prints
    a null pointer as [(null)]. *)
Definition fmt_s256 (s : option (list ascii)) : list ascii :=
  match s with
  | Some s => firstn 256 (cstr s)
  | None => str "(null)"
  end.

(** ** Constants of <cstdlib>, <csignal> (Linux values) and of the header *)

Definition EXIT_FAILURE : Z := 1.
Definition EXIT_SUCCESS : Z := 0.

Definition SIGINT : Z := 2.
Definition SIGILL : Z := 4.
Definition SIGABRT : Z := 6.
Definition SIGFPE : Z := 8.
Definition SIGSEGV : Z := 11.
Definition SIGTERM : Z := 15.

Definition MAX_BACKTRACE_LINES : nat := 64.

(** Size of [outLine1] and [outLine2] in [addr2line]. *)
Definition LINE_BUF : nat := 1035.

(** ** The platform *)

Definition pointer := Z.

Record platform : Type := mkPlatform {
  (** return addresses on the call stack when [backtrace] runs, innermost
      first; [backtrace] stores the first [MAX_BACKTRACE_LINES] of them *)
  call_stack : list pointer;
  (** [backtrace_symbols] returns NULL when this is [false] (its malloc
      failed) *)
  symbols_available : bool;
  (** the string [backtrace_symbols] gives for an address *)
  symbol_of : pointer -> list ascii;
  (** [strerror(errno)] as printed by [perror] *)
  strerror_errno : list ascii;
  (** [popen(cmd, "r")]: [None] when it returns NULL, else everything the
      subprocess writes to its standard output *)
  tool_stdout : list ascii -> option (list ascii);
  (** printf's [%p] *)
  fmt_p : pointer -> list ascii;
  (** [operator<<] of [std::ostream] on a pointer to void *)
  show_ptr : pointer -> list ascii;
  (** contents of the uninitialised arrays [outLine1] and [outLine2] when
      [addr2line] is entered *)
  uninit_outLine1 : list ascii;
  uninit_outLine2 : list ascii
}.

(** ** The exception class *)

Record CriticalException : Type := mkCriticalException {
  message : list ascii;
  funcName : list ascii;
  file : list ascii;
  line : Z
}.

Definition toStr (e : CriticalException) : list ascii :=
  message e ++ str " (in " ++ funcName e ++ str " at " ++ file e
    ++ str ":" ++ itos (line e) ++ str ")".

(** ** Process state *)

Inductive sighandler : Type :=
| SIG_DFL
| Handler_posix_signal_handler.

(** Calls on the pipe API, in the order they happen.  A stream returned by
    [popen] is named by the number of calls made on the API before it, so
    that no two streams share a name. *)
Inductive pipe_event : Type :=
| Popen (cmd : list ascii) (fp : option nat)
| Pclose (fp : nat).

Record world : Type := mkWorld {
  cerr : list (list ascii);
  programName : option (list ascii);     (* [static char* _programName] *)
  sig_table : list (Z * sighandler);     (* latest [signal] call first *)
  pipe_log : list pipe_event
}.

Definition initial_world : world := mkWorld [] None [] [].

Definition add_cerr (r : list ascii) (w : world) : world :=
  mkWorld (cerr w ++ [r]) (programName w) (sig_table w) (pipe_log w).

Definition add_pipe_event (e : pipe_event) (w : world) : world :=
  mkWorld (cerr w) (programName w) (sig_table w) (pipe_log w ++ [e]).

Definition set_programName (p : option (list ascii)) (w : world) : world :=
  mkWorld (cerr w) p (sig_table w) (pipe_log w).

Definition add_sig (s : Z) (h : sighandler) (w : world) : world :=
  mkWorld (cerr w) (programName w) ((s, h) :: sig_table w) (pipe_log w).

(** The text that reached the terminal. *)
Definition cerr_text (w : world) : list ascii := concat (cerr w).

(** Streams opened by [popen] and not yet closed. *)
Fixpoint remove_first (n : nat) (l : list nat) : list nat :=
  match l with
  | [] => []
  | m :: t => if Nat.eqb n m then t else m :: remove_first n t
  end.

Definition step_open (acc : list nat) (e : pipe_event) : list nat :=
  match e with
  | Popen _ (Some fp) => fp :: acc
  | Popen _ None => acc
  | Pclose fp => remove_first fp acc
  end.

Definition open_pipes (w : world) : list nat :=
  fold_left step_open (pipe_log w) [].

(** ** Outcomes and the monad of the embedding *)

Inductive exit_kind : Type :=
| by_exit      (* [exit(status)] *)
| by__Exit.    (* [_Exit(status)] *)

Inductive outcome (A : Type) : Type :=
| Returned (a : A) (w : world)
| Thrown (e : CriticalException) (w : world)
| Exited (k : exit_kind) (status : Z) (w : world)
| OutOfFuel.

Arguments Thrown {A} e w.
Arguments Exited {A} k status w.
Arguments OutOfFuel {A}.

Definition M (A : Type) : Type := world -> outcome A.

Definition ret {A} (a : A) : M A := fun w => Returned a w.

Definition bind {A B} (m : M A) (f : A -> M B) : M B :=
  fun w =>
    match m w with
    | Returned a w' => f a w'
    | Thrown e w' => Thrown e w'
    | Exited k s w' => Exited k s w'
    | OutOfFuel => OutOfFuel
    end.

Notation "x <- m ;; k" := (bind m (fun x => k))
  (at level 61, m at next level, right associativity).
Notation "m ;;; k" := (bind m (fun _ => k))
  (at level 61, right associativity).

Definition write_cerr (r : list ascii) : M unit :=
  fun w => Returned tt (add_cerr r w).

Definition throw {A} (e : CriticalException) : M A := fun w => Thrown e w.

Definition exit {A} (status : Z) : M A := fun w => Exited by_exit status w.

Definition _Exit {A} (status : Z) : M A := fun w => Exited by__Exit status w.

Definition getProgramName : M (option (list ascii)) :=
  fun w => Returned (programName w) w.

Definition signal (s : Z) (h : sighandler) : M unit :=
  fun w => Returned tt (add_sig s h w).

(** [try { body } catch(CriticalException & exception) { handler }] *)
Definition try_catch (body : M unit) (handler : CriticalException -> M unit)
  : M unit :=
  fun w =>
    match body w with
    | Thrown e w' => handler e w'
    | o => o
    end.

(** ** stdio streams and line buffers *)

Record FILE : Type := mkFILE {
  fileno : nat;
  unread : list ascii
}.

(** The characters one [fgets] call takes from a stream: at most [room] of
    them, stopping after a newline. *)
Fixpoint read_line (room : nat) (s : list ascii) : list ascii * list ascii :=
  match room, s with
  | S r, c :: t =>
      if Ascii.eqb c LF then ([c], t)
      else let (l, rest) := read_line r t in (c :: l, rest)
  | _, _ => ([], s)
  end.

(** Writing the characters read and the terminating NUL at the start of a
    buffer; the bytes behind them keep their old values. *)
Definition store (l : list ascii) (buf : list ascii) : list ascii :=
  l ++ NUL :: skipn (S (length l)) buf.

(** [fgets(buf, n, fp)] for [n >= 2] (the header calls it with
    [sizeof(outLine) - 1 = 1034]): NULL ([None]) at end of file, else the
    buffer and the stream after the call. *)
Definition fgets (buf : list ascii) (n : nat) (fp : FILE)
  : option (list ascii * FILE) :=
  match read_line (n - 1) (unread fp) with
  | ([], _) => None
  | (l, rest) => Some (store l buf, mkFILE (fileno fp) rest)
  end.

(** [buf[i] = c] *)
Fixpoint set_nth (i : nat) (c : ascii) (buf : list ascii) : list ascii :=
  match buf, i with
  | [], _ => []
  | _ :: t, O => c :: t
  | x :: t, S j => x :: set_nth j c t
  end.

(** Lines 260-267 of the header:
    [for(i = 0; i < 1035; ++i)
       if(outLine1[i] == '\r' || outLine1[i] == '\n')
         { outLine1[i] = '\0'; break; }]
    [fuel] is the number of iterations left. *)
Fixpoint strip_loop (fuel i : nat) (outLine1 : list ascii) : list ascii :=
  match fuel with
  | O => outLine1
  | S fuel' =>
      let c := nth i outLine1 NUL in
      if Ascii.eqb c CR || Ascii.eqb c LF then set_nth i NUL outLine1
      else strip_loop fuel' (S i) outLine1
  end.

Definition strip_eol (outLine1 : list ascii) : list ascii :=
  strip_loop LINE_BUF 0 outLine1.

(** Lines 270-276 of the header:
    [int lastSlashPos = 0;
     for(i = 0; i < 1035 && outLine2[i] != '\0'; ++i)
       if(outLine2[i] == '/') lastSlashPos = i + 1;] *)
Fixpoint slash_loop (fuel i lastSlashPos : nat) (outLine2 : list ascii)
  : nat :=
  match fuel with
  | O => lastSlashPos
  | S fuel' =>
      let c := nth i outLine2 NUL in
      if Ascii.eqb c NUL then lastSlashPos
      else slash_loop fuel' (S i)
             (if Ascii.eqb c SLASH then S i else lastSlashPos) outLine2
  end.

Definition last_slash (outLine2 : list ascii) : nat :=
  slash_loop LINE_BUF 0 0 outLine2.

(** ** The functions of the header *)

Section Header.

Variable P : platform.

Definition popen (cmd : list ascii) : M (option FILE) :=
  fun w =>
    match tool_stdout P cmd with
    | None => Returned None (add_pipe_event (Popen cmd None) w)
    | Some out =>
        let fp := length (pipe_log w) in
        Returned (Some (mkFILE fp out))
                 (add_pipe_event (Popen cmd (Some fp)) w)
    end.

Definition pclose (fp : FILE) : M unit :=
  fun w => Returned tt (add_pipe_event (Pclose (fileno fp)) w).

Definition perror (s : list ascii) : M unit :=
  write_cerr (s ++ str ": " ++ strerror_errno P ++ endl).

(** [backtrace(buffer, size)]: the buffer it fills; its return value
    [nptrs] is the length of that list. *)
Definition backtrace (size : nat) : list pointer :=
  firstn size (call_stack P).

Definition backtrace_symbols (buffer : list pointer)
  : option (list (list ascii)) :=
  if symbols_available P then Some (map (symbol_of P) buffer) else None.

(** [sprintf(addr2line_cmd, "addr2line -C -f -e %.256s %p", ...)] *)
Definition addr2line_cmd (program_name : option (list ascii))
    (addr : pointer) : list ascii :=
  str "addr2line -C -f -e " ++ fmt_s256 program_name ++ str " "
    ++ fmt_p P addr.

(** The record written at lines 278-279. *)
Definition resolved_record (lineNb : Z) (addr : pointer)
    (outLine1 outLine2 : list ascii) (lastSlashPos : nat) : list ascii :=
  str "[" ++ itos lineNb ++ str "] " ++ show_ptr P addr ++ str " in "
    ++ cstr outLine1 ++ str " at " ++ cstr (skipn lastSlashPos outLine2).

(** The [while] loop of [addr2line] (lines 249-297), the final [pclose] and
    [return 0] included.  Every iteration that goes round again has read at
    least two characters, so [S (length (unread fp))] is enough fuel. *)
Fixpoint addr2line_loop (fuel : nat) (addr : pointer) (lineNb : Z)
    (fp : FILE) (outLine1 outLine2 : list ascii) : M Z :=
  match fuel with
  | O => fun _ => OutOfFuel
  | S fuel' =>
      match fgets outLine1 (LINE_BUF - 1) fp with
      | Some (outLine1, fp) =>
          match fgets outLine2 (LINE_BUF - 1) fp with
          | Some (outLine2, fp) =>
              if negb (Ascii.eqb (nth 0 outLine2 NUL) QMARK) then
                let outLine1 := strip_eol outLine1 in
                let lastSlashPos := last_slash outLine2 in
                write_cerr (resolved_record lineNb addr outLine1 outLine2
                              lastSlashPos) ;;;
                addr2line_loop fuel' addr lineNb fp outLine1 outLine2
              else
                pclose fp ;;; ret 1
          | None => pclose fp ;;; ret 1
          end
      | None => pclose fp ;;; ret 0
      end
  end.

Definition addr2line (program_name : option (list ascii)) (addr : pointer)
    (lineNb : Z) : M Z :=
  fp <- popen (addr2line_cmd program_name addr) ;;
  match fp with
  | None => ret 1
  | Some fp =>
      addr2line_loop (S (length (unread fp))) addr lineNb fp
        (uninit_outLine1 P) (uninit_outLine2 P)
  end.

(** The record written at lines 146-147. *)
Definition fallback_record (index : Z) (symbol : list ascii) : list ascii :=
  str "[" ++ itos index ++ str "] " ++ symbol ++ endl.

(** Body of the [for] loop of [print_stacktrace] (lines 143-147). *)
Definition print_stacktrace_body (buffer : list pointer)
    (strings : list (list ascii)) (nptrs i : Z) : M unit :=
  program_name <- getProgramName ;;
  r <- addr2line program_name (nth (Z.to_nat i) buffer 0)
         (nptrs - 2 - i - 1) ;;
  if negb (r =? 0) then
    write_cerr (fallback_record (nptrs - 2 - i - 1)
                  (nth (Z.to_nat i) strings []))
  else ret tt.

(** [for(; i < nptrs - 2; ++i)] *)
Fixpoint print_stacktrace_loop (fuel : nat) (buffer : list pointer)
    (strings : list (list ascii)) (nptrs i : Z) : M unit :=
  match fuel with
  | O => fun _ => OutOfFuel
  | S fuel' =>
      if i <? nptrs - 2 then
        print_stacktrace_body buffer strings nptrs i ;;;
        print_stacktrace_loop fuel' buffer strings nptrs (i + 1)
      else ret tt
  end.

Definition print_stacktrace (calledFromSigInt : Z) : M unit :=
  let buffer := backtrace MAX_BACKTRACE_LINES in
  let nptrs := Z.of_nat (length buffer) in
  match backtrace_symbols buffer with
  | None =>
      perror (str "backtrace_symbols") ;;;
      exit EXIT_FAILURE
  | Some strings =>
      let i := 1 in
      let i := if negb (calledFromSigInt =? 0) then i + 1 else i in
      print_stacktrace_loop (S (Z.to_nat (nptrs - 2 - i)))
        buffer strings nptrs i
      (* free(strings) *)
  end.

Definition posix_signal_handler (sig : Z) : M unit :=
  print_stacktrace 1 ;;;
  (if sig =? SIGABRT then
     write_cerr
       (str "Caught SIGABRT: usually caused by an abort() or assert()"
          ++ endl)
   else if sig =? SIGFPE then
     write_cerr
       (str "Caught SIGFPE: arithmetic exception, such as divide by zero"
          ++ endl)
   else if sig =? SIGILL then
     write_cerr (str "Caught SIGILL: illegal instruction" ++ endl)
   else if sig =? SIGINT then
     write_cerr
       (str "Caught SIGINT: interactive attention signal, probably a ctrl+c"
          ++ endl)
   else if sig =? SIGSEGV then
     write_cerr (str "Caught SIGSEGV: segfault" ++ endl)
   else (* case SIGTERM: default: *)
     write_cerr
       (str "Caught SIGTERM: a termination request was sent to the program"
          ++ endl)) ;;;
  _Exit EXIT_FAILURE.

Definition set_signal_handler (handler : sighandler) : M unit :=
  signal SIGABRT handler ;;;
  signal SIGFPE handler ;;;
  signal SIGILL handler ;;;
  signal SIGINT handler ;;;
  signal SIGSEGV handler ;;;
  signal SIGTERM handler.

Definition init_exceptions (programName : option (list ascii)) : M unit :=
  set_signal_handler Handler_posix_signal_handler ;;;
  (fun w => Returned tt (set_programName programName w)).

(** [CRITICAL(str)] expanded in function [func] at [file]:[line]. *)
Definition CRITICAL (s func file : list ascii) (line : Z) : M unit :=
  print_stacktrace 0 ;;;
  throw (mkCriticalException s func file line).

(** The [catch] block of [END_EXCEPTIONS]. *)
Definition END_EXCEPTIONS (exception : CriticalException) : M unit :=
  write_cerr (toStr exception ++ endl) ;;;
  exit EXIT_FAILURE.

(** [BEGIN_EXCEPTIONS body END_EXCEPTIONS] in a [main] whose [argv[0]] is
    [argv0]. *)
Definition BEGIN_END_EXCEPTIONS (argv0 : option (list ascii)) (body : M unit)
  : M unit :=
  init_exceptions argv0 ;;;
  try_catch body END_EXCEPTIONS.

End Header.

(** * Definitions used in the statements *)

(** ** Worlds and buffers *)

(** [grow recs evs w]: [w] after the records [recs] were written to
    [std::cerr] and the calls [evs] were made on the pipe API. *)
Definition grow (recs : list (list ascii)) (evs : list pipe_event)
    (w : world) : world :=
  mkWorld (cerr w ++ recs) (programName w) (sig_table w) (pipe_log w ++ evs).

(** What the first loop does to the part of the buffer not yet visited. *)
Fixpoint strip_list (fuel : nat) (l : list ascii) : list ascii :=
  match fuel, l with
  | S fuel', c :: t =>
      if (Ascii.eqb c CR || Ascii.eqb c LF)%bool then NUL :: t
      else c :: strip_list fuel' t
  | _, _ => l
  end.

(** A line cut at its first NUL, carriage return or newline. *)
Fixpoint until_eol (l : list ascii) : list ascii :=
  match l with
  | [] => []
  | c :: t =>
      if (Ascii.eqb c NUL || (Ascii.eqb c CR || Ascii.eqb c LF))%bool then []
      else c :: until_eol t
  end.

(** The value of [lastSlashPos] after scanning the C string [s] from
    position [i]. *)
Fixpoint slash_scan (i pos : nat) (s : list ascii) : nat :=
  match s with
  | [] => pos
  | c :: t => slash_scan (S i) (if Ascii.eqb c SLASH then S i else pos) t
  end.

(** The most characters one [fgets] call of the header stores:
    [sizeof(outLine1) - 1 - 1 = 1033]. *)
Definition fgets_room : nat := LINE_BUF - 1 - 1.


(** The commands handed to [popen] in a list of pipe calls. *)
Fixpoint commands_launched (evs : list pipe_event) : list (list ascii) :=
  match evs with
  | [] => []
  | Popen cmd _ :: t => cmd :: commands_launched t
  | Pclose _ :: t => commands_launched t
  end.

(** ** The walk over the retained frames *)

Section Walk.

Variable P : platform.

(** The calls [addr2line] makes on the pipe API for a command. *)
Definition pipe_calls (cmd : list ascii) (w : world) : list pipe_event :=
  match tool_stdout P cmd with
  | None => [Popen cmd None]
  | Some _ => [Popen cmd (Some (length (pipe_log w)));
               Pclose (length (pipe_log w))]
  end.

(** One iteration of the loop of [print_stacktrace], for the frame at
    [addr] displayed with [index]. *)
Definition frame_step (addr : pointer) (index : Z) : M unit :=
  program_name <- getProgramName ;;
  r <- addr2line P program_name addr index ;;
  if negb (r =? 0) then
    write_cerr (fallback_record index (symbol_of P addr))
  else ret tt.

(** The Stack Walker as the specification describes it: every frame of a
    list is handled in order and displayed with an index that counts down
    to 0. *)
Fixpoint walk (frames : list pointer) : M unit :=
  match frames with
  | [] => ret tt
  | addr :: rest => frame_step addr (Z.of_nat (length rest)) ;;; walk rest
  end.

(** The frames left after the fixed exclusions: the outermost two, and the
    innermost one (two on the signal path). *)
Definition retained (calledFromSigInt : Z) : list pointer :=
  let buffer := backtrace P MAX_BACKTRACE_LINES in
  skipn (if calledFromSigInt =? 0 then 1 else 2)
        (firstn (length buffer - 2) buffer).

(** The subprocess behaviours on which one resolution writes exactly one
    record, its own or the caller's fallback: the pipe cannot be opened;
    the output is a single line; the second line starts with '?'; the
    output is one pair of lines and nothing more. *)
Definition one_record (program_name : option (list ascii)) (addr : pointer)
  : bool :=
  match tool_stdout P (addr2line_cmd P program_name addr) with
  | None => true
  | Some out =>
      let (l1, rest1) := read_line fgets_room out in
      let (l2, rest2) := read_line fgets_room rest1 in
      match l1, l2 with
      | [], _ => false
      | _ :: _, [] => true
      | _ :: _, c :: _ =>
          Ascii.eqb c QMARK || match rest2 with [] => true | _ :: _ => false end
      end
  end.

End Walk.

(** * Example platforms

    Two call stacks of the demo program.  [stack] is the one of the README:
    [CRITICAL] used in [main], so that [backtrace] sees the frame of
    [print_stacktrace], [main], and the two start-up frames.  [deep_stack]
    is the one of [CRITICAL] used in [A::foo], called from [A::Test],
    called from [main]. *)

Module Demo.

Definition hex (a : Z) : list ascii :=
  str "0x" ++ str (HexadecimalString.NilZero.string_of_uint
                     (N.to_hex_uint (Z.to_N a))).

Definition stack : list pointer := [4200750; 4203079; 4260921; 4199050].

Definition deep_stack : list pointer :=
  [4200750; 4201488; 4201810; 4203079; 4260921; 4199050].

Definition symbol (a : pointer) : list ascii :=
  str "./demo() [" ++ hex a ++ str "]".

Definition garbage : list ascii := repeat "X"%char LINE_BUF.

Definition is_cmd (cmd : list ascii) (s : string) : bool :=
  String.eqb (string_of_list_ascii cmd) s.

(** The tool resolves every address to [main] in [main.cpp]. *)
Definition tool_resolving (cmd : list ascii) : option (list ascii) :=
  Some (str "main" ++ endl
          ++ str "/home/user/demo/main.cpp:6 (discriminator 1)" ++ endl).

(** The tool knows no address. *)
Definition tool_unknown (cmd : list ascii) : option (list ascii) :=
  Some (str "??" ++ endl ++ str "??:0" ++ endl).

(** The tool writes nothing on its standard output (it is not installed,
    or it cannot open the executable). *)
Definition tool_silent (cmd : list ascii) : option (list ascii) :=
  Some [].

(** The tool writes two pairs of lines for one address. *)
Definition tool_two_pairs (cmd : list ascii) : option (list ascii) :=
  Some (str "foo" ++ endl ++ str "/home/user/demo/foo.hpp:9" ++ endl
          ++ str "main" ++ endl ++ str "/home/user/demo/main.cpp:6" ++ endl).

(** The tool writes a symbol of 1040 characters, more than one [fgets]
    call of the header takes, and then the location. *)
Definition tool_long_symbol (cmd : list ascii) : option (list ascii) :=
  Some (repeat "a"%char 1040 ++ endl
          ++ str "/home/user/demo/main.cpp:6" ++ endl).

(** The tool resolves [A::foo] (ending its lines with CR LF), knows nothing
    about [A::Test], and cannot be started for [main]. *)
Definition tool_mixed (cmd : list ascii) : option (list ascii) :=
  if is_cmd cmd "addr2line -C -f -e ./demo 0x401c10" then
    Some (str "A::foo(bool)" ++ [CR; LF]
            ++ str "/home/user/demo/main.cpp:37" ++ [CR; LF])
  else if is_cmd cmd "addr2line -C -f -e ./demo 0x401d52" then
    Some (str "??" ++ endl ++ str "??:0" ++ endl)
  else None.

Definition platform_with (frames : list pointer) (available : bool)
    (tool : list ascii -> option (list ascii)) : platform :=
  mkPlatform frames available symbol (str "Cannot allocate memory") tool
    hex hex garbage garbage.

Definition resolving : platform := platform_with stack true tool_resolving.
Definition unknown : platform := platform_with stack true tool_unknown.
Definition silent : platform := platform_with stack true tool_silent.
Definition two_pairs : platform := platform_with stack true tool_two_pairs.
Definition long_symbol : platform :=
  platform_with stack true tool_long_symbol.
Definition mixed : platform := platform_with deep_stack true tool_mixed.
Definition no_symbols : platform := platform_with stack false tool_resolving.

(** The world after [init_exceptions("./demo")]. *)
Definition started : world :=
  mkWorld [] (Some (str "./demo"))
    [(SIGTERM, Handler_posix_signal_handler);
     (SIGSEGV, Handler_posix_signal_handler);
     (SIGINT, Handler_posix_signal_handler);
     (SIGILL, Handler_posix_signal_handler);
     (SIGFPE, Handler_posix_signal_handler);
     (SIGABRT, Handler_posix_signal_handler)] [].

(** The same with an empty program name, [init_exceptions("")]. *)
Definition started_unnamed : world :=
  mkWorld [] (Some []) (sig_table started) [].

End Demo.

(** * The rest of the header and the demo program *)

(** ** Signal dispositions *)

(** The handler in force for a signal: the one of the latest [signal] call
    for it, [SIG_DFL] when there was none. *)
Fixpoint handler_in (sig : Z) (table : list (Z * sighandler)) : sighandler :=
  match table with
  | [] => SIG_DFL
  | (s, h) :: rest => if s =? sig then h else handler_in sig rest
  end.

Definition handler_of (sig : Z) (w : world) : sighandler :=
  handler_in sig (sig_table w).

(** The signals [set_signal_handler] names. *)
Definition handled_signals : list Z :=
  [SIGABRT; SIGFPE; SIGILL; SIGINT; SIGSEGV; SIGTERM].

(** ** Platforms that differ in the uninitialised line buffers only *)

Definition with_uninit (outLine1 outLine2 : list ascii) (P : platform)
  : platform :=
  mkPlatform (call_stack P) (symbols_available P) (symbol_of P)
    (strerror_errno P) (tool_stdout P) (fmt_p P) (show_ptr P)
    outLine1 outLine2.

(** ** The demo program ([demo/main.cpp]) *)

Module Main.

Section Program.

Variable P : platform.

(** The expansion of [__FILE__] in [main.cpp]: the path the compiler was
    given. *)
Variable FILE_ : list ascii.

(** [void A::foo(bool crash)]: the assignments to the local [i] have no
    effect on the process. *)
Definition foo (crash : bool) : M unit :=
  if crash then
    CRITICAL P (str "Foo crashed") (str "foo") FILE_ 37 ;;;
    ret tt
  else ret tt.

(** [void A::bar(bool crash)] *)
Definition bar (crash : bool) : M unit :=
  if crash then CRITICAL P (str "Bar crashed") (str "bar") FILE_ 45
  else ret tt.

(** [void A::Test()] *)
Definition Test : M unit :=
  foo true ;;;
  bar true.

(** [int main(int argc, char* argv[])].  What
    [Crasher::generateRandomCrash()] does rests on [rand] and on undefined
    behaviour (a division by zero, a null dereference, unbounded
    recursion), so it is a parameter. *)
Definition main (argv0 : option (list ascii))
    (generateRandomCrash : M unit) : M unit :=
  BEGIN_END_EXCEPTIONS argv0
    (generateRandomCrash ;;;
     Test) ;;;
  exit EXIT_SUCCESS.

End Program.

End Main.

(** ** More example platforms *)

Module DemoMore.

(** A tool that answers with a single line, as [atos] does. *)
Definition tool_one_line (cmd : list ascii) : option (list ascii) :=
  Some (str "main (in demo) (main.cpp:6)" ++ endl).

(** [popen] fails for every command. *)
Definition tool_unavailable (cmd : list ascii) : option (list ascii) :=
  None.

Definition one_line : platform :=
  Demo.platform_with Demo.stack true tool_one_line.

Definition unavailable : platform :=
  Demo.platform_with Demo.stack true tool_unavailable.

(** A stack of three frames: [print_stacktrace] called from a function
    that the start-up code calls directly. *)
Definition shallow : platform :=
  Demo.platform_with [4200750; 4260921; 4199050] true Demo.tool_resolving.

(** A stack of 70 frames, as unbounded recursion leaves it. *)
Definition deep_recursion : platform :=
  Demo.platform_with (map (fun n => 4200000 + Z.of_nat n) (seq 0 70)) true
    Demo.tool_unknown.

End DemoMore.

(** ** Platforms whose tool writes lines longer than the line buffer, or
    lines with a carriage return inside *)

Module DemoLong.

(** A symbol of 1040 characters, known from the symbol table only: the
    location line is the marker of an unknown location. *)
Definition tool_long_symbol_unknown (cmd : list ascii)
  : option (list ascii) :=
  Some (repeat "a"%char 1040 ++ endl ++ str "??:0" ++ endl).

(** The same followed by a third line. *)
Definition tool_long_symbol_unknown_more (cmd : list ascii)
  : option (list ascii) :=
  Some (repeat "a"%char 1040 ++ endl ++ str "??:0" ++ endl
          ++ str "x" ++ endl).

(** A symbol of 2070 characters and its location. *)
Definition tool_very_long_symbol (cmd : list ascii) : option (list ascii) :=
  Some (repeat "a"%char 2070 ++ endl
          ++ str "/home/user/demo/main.cpp:6" ++ endl).

(** A first line with a carriage return in the middle. *)
Definition tool_cr_inside (cmd : list ascii) : option (list ascii) :=
  Some (str "foo" ++ [CR] ++ str "bar" ++ endl
          ++ str "/home/user/demo/main.cpp:6" ++ endl).

Definition long_symbol_unknown : platform :=
  Demo.platform_with Demo.stack true tool_long_symbol_unknown.

Definition long_symbol_unknown_more : platform :=
  Demo.platform_with Demo.stack true tool_long_symbol_unknown_more.

Definition very_long_symbol : platform :=
  Demo.platform_with Demo.stack true tool_very_long_symbol.

Definition cr_inside : platform :=
  Demo.platform_with Demo.stack true tool_cr_inside.

(** A line buffer of the real size holding a C string, its terminators and
    stale bytes behind them, and one without any terminator. *)
Definition buffer_with_terminator : list ascii :=
  str "A::foo(bool)" ++ [CR; LF; NUL] ++ repeat "X"%char 1018 ++ [LF; LF].

Definition buffer_without_terminator : list ascii :=
  str "A::foo(bool)" ++ [NUL] ++ repeat "X"%char 1022.

End DemoLong.

(** * Properties *)

Unset Implicit Arguments.

(** ** Worlds *)


Lemma grow_nil (w : world) : grow [] [] w = w.
Proof. destruct w; unfold grow; simpl; now rewrite !app_nil_r. Qed.

Lemma grow_grow recs1 evs1 recs2 evs2 (w : world) :
  grow recs2 evs2 (grow recs1 evs1 w) = grow (recs1 ++ recs2) (evs1 ++ evs2) w.
Proof. unfold grow; simpl; now rewrite !app_assoc. Qed.

Lemma add_cerr_grow r (w : world) : add_cerr r w = grow [r] [] w.
Proof. unfold add_cerr, grow; now rewrite app_nil_r. Qed.

Lemma add_pipe_event_grow e (w : world) : add_pipe_event e w = grow [] [e] w.
Proof. unfold add_pipe_event, grow; now rewrite app_nil_r. Qed.

Lemma pipe_log_grow recs evs w :
  pipe_log (grow recs evs w) = pipe_log w ++ evs.
Proof. reflexivity. Qed.

Lemma programName_grow recs evs w :
  programName (grow recs evs w) = programName w.
Proof. reflexivity. Qed.

(** ** Characters *)

Lemma NUL_not_eol : (Ascii.eqb NUL CR || Ascii.eqb NUL LF)%bool = false.
Proof. reflexivity. Qed.

(** ** C strings in line buffers *)

Lemma cstr_app_NUL (l rest : list ascii) : cstr (l ++ NUL :: rest) = cstr l.
Proof.
  induction l as [| c l IH]; simpl; [reflexivity |].
  destruct (Ascii.eqb c NUL); [reflexivity | now rewrite IH].
Qed.

Lemma cstr_store (l buf : list ascii) : cstr (store l buf) = cstr l.
Proof. apply cstr_app_NUL. Qed.

Lemma cstr_length_le (l : list ascii) : (length (cstr l) <= length l)%nat.
Proof.
  induction l as [| c l IH]; simpl; [lia |].
  destruct (Ascii.eqb c NUL); simpl; lia.
Qed.

Lemma cstr_skipn (p : nat) (b : list ascii) :
  (p <= length (cstr b))%nat -> cstr (skipn p b) = skipn p (cstr b).
Proof.
  revert b. induction p as [| p IH]; intros b Hp; [reflexivity |].
  destruct b as [| c b]; simpl in *; [reflexivity |].
  destruct (Ascii.eqb c NUL); simpl in *; [lia |].
  apply IH. lia.
Qed.

(** ** [fgets] *)

Lemma read_line_app room s :
  fst (read_line room s) ++ snd (read_line room s) = s.
Proof.
  revert s. induction room as [| r IH]; intros [| c t]; simpl; try reflexivity.
  destruct (Ascii.eqb c LF); simpl; [reflexivity |].
  specialize (IH t). destruct (read_line r t) as [l rest]. simpl in *.
  now rewrite IH.
Qed.

Lemma read_line_length room s :
  (length (fst (read_line room s)) <= room)%nat.
Proof.
  revert s. induction room as [| r IH]; intros [| c t]; simpl; try lia.
  destruct (Ascii.eqb c LF); simpl; [lia |].
  specialize (IH t). destruct (read_line r t) as [l rest]. simpl in *. lia.
Qed.

Lemma read_line_nil : forall room, read_line room [] = ([], []).
Proof. now intros [| r]. Qed.

Lemma fgets_Some buf n fp buf' fp' :
  fgets buf n fp = Some (buf', fp') ->
  exists l, l <> [] /\ read_line (n - 1) (unread fp) = (l, unread fp') /\
            buf' = store l buf /\ fileno fp' = fileno fp /\
            (length l <= n - 1)%nat /\
            (length (unread fp') < length (unread fp))%nat.
Proof.
  unfold fgets. intros H.
  pose proof (read_line_app (n - 1) (unread fp)) as Happ.
  pose proof (read_line_length (n - 1) (unread fp)) as Hlen.
  destruct (read_line (n - 1) (unread fp)) as [l rest]. simpl in *.
  destruct l as [| c l]; [discriminate |].
  inversion H; subst; clear H. simpl.
  exists (c :: l). repeat split; try easy.
  rewrite <- Happ. simpl. rewrite length_app. lia.
Qed.

Lemma fgets_eof buf n fileno : fgets buf n (mkFILE fileno []) = None.
Proof. unfold fgets. simpl. now rewrite read_line_nil. Qed.

(** ** The two scanning loops of [addr2line] *)


Lemma set_nth_middle (pre : list ascii) x c t :
  set_nth (length pre) c (pre ++ x :: t) = pre ++ c :: t.
Proof. induction pre as [| y pre IH]; simpl; [reflexivity | now rewrite IH]. Qed.

Lemma strip_loop_beyond fuel : forall i b,
  (length b <= i)%nat -> strip_loop fuel i b = b.
Proof.
  induction fuel as [| fuel IH]; intros i b Hi; simpl; [reflexivity |].
  rewrite (nth_overflow b NUL Hi), NUL_not_eol. apply IH. lia.
Qed.

Lemma strip_loop_split fuel : forall pre suf,
  strip_loop fuel (length pre) (pre ++ suf) = pre ++ strip_list fuel suf.
Proof.
  induction fuel as [| fuel IH]; intros pre suf; simpl; [reflexivity |].
  destruct suf as [| c t].
  - rewrite nth_overflow by (rewrite length_app; simpl; lia).
    rewrite NUL_not_eol. apply strip_loop_beyond. rewrite length_app; simpl; lia.
  - rewrite nth_middle.
    destruct (Ascii.eqb c CR || Ascii.eqb c LF)%bool.
    + apply set_nth_middle.
    + replace (pre ++ c :: t) with ((pre ++ [c]) ++ t)
        by (now rewrite <- app_assoc).
      replace (S (length pre)) with (length (pre ++ [c]))
        by (rewrite length_app; simpl; lia).
      rewrite IH. now rewrite <- app_assoc.
Qed.

Lemma cstr_strip_list : forall l fuel,
  (length (cstr l) < fuel)%nat -> cstr (strip_list fuel l) = until_eol l.
Proof.
  induction l as [| c t IH]; intros fuel Hf.
  - destruct fuel; reflexivity.
  - destruct fuel as [| fuel]; [lia |]. simpl in *.
    destruct (Ascii.eqb c CR || Ascii.eqb c LF)%bool eqn:Eeol.
    + rewrite orb_true_r. reflexivity.
    + rewrite orb_false_r. simpl.
      destruct (Ascii.eqb c NUL); [reflexivity |].
      simpl in Hf. f_equal. apply IH. lia.
Qed.

Lemma until_eol_app_NUL l rest : until_eol (l ++ NUL :: rest) = until_eol l.
Proof.
  induction l as [| c l IH]; simpl; [reflexivity |].
  destruct (Ascii.eqb c NUL || (Ascii.eqb c CR || Ascii.eqb c LF))%bool;
    [reflexivity | now rewrite IH].
Qed.

(** After the first loop, [outLine1] as a C string is the line read, cut at
    its first terminator, whatever the buffer held before. *)
Lemma cstr_strip_eol_store (l buf : list ascii) :
  (length l < LINE_BUF)%nat ->
  cstr (strip_eol (store l buf)) = until_eol l.
Proof.
  intros Hl. unfold strip_eol.
  change (store l buf) with ([] ++ store l buf).
  change 0%nat with (length (@nil ascii)).
  rewrite strip_loop_split, app_nil_l.
  rewrite cstr_strip_list.
  - apply until_eol_app_NUL.
  - rewrite cstr_store. pose proof (cstr_length_le l). lia.
Qed.

Lemma until_eol_spec (l : list ascii) :
  (forall c, In c (until_eol l) -> c <> NUL /\ c <> CR /\ c <> LF) /\
  exists rest, l = until_eol l ++ rest /\
               (rest = [] \/
                exists c rest', rest = c :: rest' /\
                                (c = NUL \/ c = CR \/ c = LF)).
Proof.
  induction l as [| c t [IH1 [rest [IH2 IH3]]]]; simpl.
  - split; [intros c [] | exists []; split; [reflexivity | now left]].
  - destruct (Ascii.eqb c NUL) eqn:E0; simpl.
    + apply Ascii.eqb_eq in E0. split; [intros x [] |].
      exists (c :: t). split; [reflexivity | right; eauto].
    + destruct (Ascii.eqb c CR) eqn:E1; simpl.
      * apply Ascii.eqb_eq in E1. split; [intros x [] |].
        exists (c :: t). split; [reflexivity | right; eauto 6].
      * destruct (Ascii.eqb c LF) eqn:E2; simpl.
        -- apply Ascii.eqb_eq in E2. split; [intros x [] |].
           exists (c :: t). split; [reflexivity | right; eauto 6].
        -- apply Ascii.eqb_neq in E0, E1, E2. split.
           ++ intros x [<- | Hx]; [easy | now apply IH1].
           ++ exists rest. split; [now rewrite <- IH2 | exact IH3].
Qed.

Lemma slash_loop_scan fuel : forall pre suf pos,
  (length (cstr suf) < fuel)%nat ->
  slash_loop fuel (length pre) pos (pre ++ suf)
  = slash_scan (length pre) pos (cstr suf).
Proof.
  induction fuel as [| fuel IH]; intros pre suf pos Hf; [lia |]. simpl.
  destruct suf as [| c t].
  - rewrite nth_overflow by (rewrite length_app; simpl; lia). reflexivity.
  - rewrite nth_middle. simpl in *.
    destruct (Ascii.eqb c NUL); [reflexivity |]. simpl in *.
    replace (pre ++ c :: t) with ((pre ++ [c]) ++ t)
      by (now rewrite <- app_assoc).
    replace (S (length pre)) with (length (pre ++ [c]))
      by (rewrite length_app; simpl; lia).
    apply IH. lia.
Qed.

Lemma slash_scan_spec : forall s i pos,
  (~ In SLASH s /\ slash_scan i pos s = pos) \/
  (exists a b, s = a ++ SLASH :: b /\ ~ In SLASH b /\
               slash_scan i pos s = (i + length a + 1)%nat).
Proof.
  induction s as [| c t IH]; intros i pos; simpl.
  - left. split; [intros [] | reflexivity].
  - destruct (IH (S i) (if Ascii.eqb c SLASH then S i else pos))
      as [[Hno Hp] | (a & b & Ht & Hb & Hp)].
    + destruct (Ascii.eqb c SLASH) eqn:E.
      * apply Ascii.eqb_eq in E. subst c. right.
        exists [], t. simpl. repeat split; [exact Hno | lia].
      * apply Ascii.eqb_neq in E. left. split; [| exact Hp].
        intros [H | H]; [now apply E | now apply Hno].
    + right. exists (c :: a), b. subst t. simpl.
      repeat split; [exact Hb | lia].
Qed.

(** The text printed for [outLine2 + lastSlashPos] is what follows the last
    '/' of the line read, whatever the buffer held before. *)
Lemma cstr_last_slash_store (l buf : list ascii) :
  (length l < LINE_BUF)%nat ->
  let outLine2 := store l buf in
  let loc := cstr (skipn (last_slash outLine2) outLine2) in
  ~ In SLASH loc /\
  (cstr l = loc \/ exists dir, cstr l = dir ++ SLASH :: loc).
Proof.
  intros Hl outLine2 loc. subst loc. unfold last_slash.
  assert (Hscan : slash_loop LINE_BUF 0 0 outLine2
                  = slash_scan 0 0 (cstr l)).
  { change outLine2 with ([] ++ outLine2).
    change 0%nat with (length (@nil ascii)) at 1 3.
    rewrite slash_loop_scan; simpl.
    - unfold outLine2. now rewrite cstr_store.
    - unfold outLine2. rewrite cstr_store.
      pose proof (cstr_length_le l). lia. }
  rewrite Hscan.
  destruct (slash_scan_spec (cstr l) 0 0) as [[Hno Hp] | (a & b & Hs & Hb & Hp)];
    rewrite Hp.
  - simpl. unfold outLine2. rewrite cstr_store. split; [exact Hno | now left].
  - rewrite cstr_skipn; unfold outLine2; rewrite cstr_store.
    + rewrite Hs. replace (0 + length a + 1)%nat with (length (a ++ [SLASH]))
        by (rewrite length_app; simpl; lia).
      replace (a ++ SLASH :: b) with ((a ++ [SLASH]) ++ b)
        by (now rewrite <- app_assoc).
      rewrite skipn_app, skipn_all, Nat.sub_diag. simpl.
      split; [exact Hb | right; exists a; now rewrite <- app_assoc].
    + rewrite Hs, length_app. simpl. lia.
Qed.

(** ** The resolver *)


Lemma fgets_room_lt : (fgets_room < LINE_BUF)%nat.
Proof. unfold fgets_room, LINE_BUF. lia. Qed.

Lemma fgets_read buf fp l rest :
  read_line fgets_room (unread fp) = (l, rest) -> l <> [] ->
  fgets buf (LINE_BUF - 1) fp = Some (store l buf, mkFILE (fileno fp) rest).
Proof.
  unfold fgets. fold fgets_room. intros -> Hl.
  destruct l; [contradiction | reflexivity].
Qed.

Lemma read_line_fst_length room s l rest :
  read_line room s = (l, rest) -> (length l <= room)%nat.
Proof. intros H. pose proof (read_line_length room s). now rewrite H in *. Qed.

Lemma read_line_cons_hd r c t l rest :
  read_line (S r) (c :: t) = (l, rest) -> exists l', l = c :: l'.
Proof.
  cbn [read_line]. destruct (Ascii.eqb c LF).
  - intros H. inversion H. eauto.
  - destruct (read_line r t) as [a b]. intros H. inversion H. eauto.
Qed.

Lemma store_hd l buf : l <> [] -> nth 0 (store l buf) NUL = hd NUL l.
Proof. destruct l; [contradiction | reflexivity]. Qed.

Section Resolver.

Variable P : platform.

Lemma addr2line_loop_S fuel addr lineNb fp outLine1 outLine2 :
  addr2line_loop P (S fuel) addr lineNb fp outLine1 outLine2 =
  match fgets outLine1 (LINE_BUF - 1) fp with
  | Some (outLine1, fp) =>
      match fgets outLine2 (LINE_BUF - 1) fp with
      | Some (outLine2, fp) =>
          if negb (Ascii.eqb (nth 0 outLine2 NUL) QMARK) then
            write_cerr (resolved_record P lineNb addr (strip_eol outLine1)
                          outLine2 (last_slash outLine2)) ;;;
            addr2line_loop P fuel addr lineNb fp (strip_eol outLine1) outLine2
          else
            pclose fp ;;; ret 1
      | None => pclose fp ;;; ret 1
      end
  | None => pclose fp ;;; ret 0
  end.
Proof. reflexivity. Qed.

Lemma pclose_ret (fp : FILE) (r : Z) (w : world) :
  (pclose fp ;;; ret r) w = Returned r (grow [] [Pclose (fileno fp)] w).
Proof. unfold bind, pclose, ret. now rewrite add_pipe_event_grow. Qed.

(** The loop always returns: it closes the stream it was given exactly
    once, and its value is 0 or 1. *)
Lemma addr2line_loop_returns fuel : forall addr lineNb fp b1 b2 w,
  (length (unread fp) < fuel)%nat ->
  exists r recs,
    addr2line_loop P fuel addr lineNb fp b1 b2 w
    = Returned r (grow recs [Pclose (fileno fp)] w) /\ (r = 0 \/ r = 1).
Proof.
  induction fuel as [| fuel IH]; intros addr lineNb fp b1 b2 w Hf; [lia |].
  rewrite addr2line_loop_S.
  destruct (fgets b1 (LINE_BUF - 1) fp) as [[b1' fp1] |] eqn:E1.
  - destruct (fgets_Some _ _ _ _ _ E1) as (l1 & _ & _ & _ & Hno1 & _ & Hlt1).
    destruct (fgets b2 (LINE_BUF - 1) fp1) as [[b2' fp2] |] eqn:E2.
    + destruct (fgets_Some _ _ _ _ _ E2) as (l2 & _ & _ & _ & Hno2 & _ & Hlt2).
      destruct (negb (Ascii.eqb (nth 0 b2' NUL) QMARK)).
      * unfold bind at 1. unfold write_cerr.
        destruct (IH addr lineNb fp2 (strip_eol b1') b2'
                    (add_cerr (resolved_record P lineNb addr (strip_eol b1')
                                 b2' (last_slash b2')) w))
          as (r & recs & Hrun & Hr); [lia |].
        rewrite Hrun. exists r. eexists. split; [| exact Hr].
        rewrite add_cerr_grow, grow_grow. simpl.
        now rewrite Hno2, Hno1.
      * exists 1, []. rewrite pclose_ret, Hno2, Hno1. auto.
    + exists 1, []. rewrite pclose_ret, Hno1. auto.
  - exists 0, []. rewrite pclose_ret. auto.
Qed.


Lemma addr2line_returns program_name addr lineNb w :
  exists r recs,
    addr2line P program_name addr lineNb w
    = Returned r (grow recs (pipe_calls P (addr2line_cmd P program_name addr) w)
                    w)
    /\ (r = 0 \/ r = 1).
Proof.
  unfold addr2line, pipe_calls, bind, popen.
  destruct (tool_stdout P (addr2line_cmd P program_name addr)) as [out |].
  - match goal with
    | |- context [addr2line_loop P ?f ?a ?n ?fp ?b1 ?b2 ?w0] =>
        destruct (addr2line_loop_returns f a n fp b1 b2 w0)
          as (r & recs & Hrun & Hr); [simpl; lia |]
    end.
    rewrite Hrun. exists r, recs. split; [| exact Hr].
    rewrite add_pipe_event_grow, grow_grow. reflexivity.
  - exists 1, []. unfold ret. rewrite add_pipe_event_grow. auto.
Qed.

(** [popen] returned NULL. *)
Lemma addr2line_popen_failed program_name addr lineNb w :
  tool_stdout P (addr2line_cmd P program_name addr) = None ->
  addr2line P program_name addr lineNb w
  = Returned 1 (grow [] [Popen (addr2line_cmd P program_name addr) None] w).
Proof.
  intros H. unfold addr2line, bind, popen. rewrite H. unfold ret.
  now rewrite add_pipe_event_grow.
Qed.

Lemma addr2line_opened program_name addr lineNb w out :
  tool_stdout P (addr2line_cmd P program_name addr) = Some out ->
  addr2line P program_name addr lineNb w
  = addr2line_loop P (S (length out)) addr lineNb
      (mkFILE (length (pipe_log w)) out)
      (uninit_outLine1 P) (uninit_outLine2 P)
      (grow [] [Popen (addr2line_cmd P program_name addr)
                  (Some (length (pipe_log w)))] w).
Proof.
  intros H. unfold addr2line, bind, popen. rewrite H.
  now rewrite add_pipe_event_grow.
Qed.

(** The subprocess wrote nothing: the loop body never runs and the
    function falls through to [return 0]. *)
Lemma addr2line_no_output program_name addr lineNb w :
  tool_stdout P (addr2line_cmd P program_name addr) = Some [] ->
  addr2line P program_name addr lineNb w
  = Returned 0 (grow [] (pipe_calls P (addr2line_cmd P program_name addr) w) w).
Proof.
  intros H. rewrite (addr2line_opened _ _ lineNb w _ H). unfold pipe_calls.
  rewrite H, addr2line_loop_S, fgets_eof, pclose_ret, grow_grow.
  reflexivity.
Qed.

(** The subprocess wrote a single line. *)
Lemma addr2line_one_line program_name addr lineNb w out l1 :
  tool_stdout P (addr2line_cmd P program_name addr) = Some out ->
  read_line fgets_room out = (l1, []) -> l1 <> [] ->
  addr2line P program_name addr lineNb w
  = Returned 1 (grow [] (pipe_calls P (addr2line_cmd P program_name addr) w) w).
Proof.
  intros H H1 Hne. rewrite (addr2line_opened _ _ lineNb w _ H). unfold pipe_calls.
  rewrite H, addr2line_loop_S.
  rewrite (fgets_read _ (mkFILE _ out) _ _ H1 Hne), fgets_eof.
  rewrite pclose_ret, grow_grow. reflexivity.
Qed.

(** The second line read starts with '?'. *)
Lemma addr2line_unresolved program_name addr lineNb w out l1 rest :
  tool_stdout P (addr2line_cmd P program_name addr) = Some out ->
  read_line fgets_room out = (l1, QMARK :: rest) -> l1 <> [] ->
  addr2line P program_name addr lineNb w
  = Returned 1 (grow [] (pipe_calls P (addr2line_cmd P program_name addr) w) w).
Proof.
  intros H H1 Hne. rewrite (addr2line_opened _ _ lineNb w _ H). unfold pipe_calls.
  rewrite H, addr2line_loop_S.
  rewrite (fgets_read _ (mkFILE _ out) _ _ H1 Hne).
  destruct (read_line fgets_room (QMARK :: rest)) as [l2 rest2] eqn:H2.
  assert (Hl2 : exists t, l2 = QMARK :: t).
  { change fgets_room with (S (fgets_room - 1)) in H2.
    apply (read_line_cons_hd _ _ _ _ _ H2). }
  destruct Hl2 as [t ->].
  rewrite (fgets_read _ (mkFILE _ (QMARK :: rest)) _ _ H2) by discriminate.
  cbn [store app nth Ascii.eqb negb].
  change (Ascii.eqb QMARK QMARK) with true. cbn [negb].
  rewrite pclose_ret, grow_grow. reflexivity.
Qed.

(** The subprocess wrote exactly one pair of lines and the second does not
    start with '?'. *)
Lemma addr2line_one_pair program_name addr lineNb w out l1 rest l2 :
  tool_stdout P (addr2line_cmd P program_name addr) = Some out ->
  read_line fgets_room out = (l1, rest) -> l1 <> [] ->
  read_line fgets_room rest = (l2, []) -> l2 <> [] ->
  hd NUL l2 <> QMARK ->
  let outLine1 := strip_eol (store l1 (uninit_outLine1 P)) in
  let outLine2 := store l2 (uninit_outLine2 P) in
  addr2line P program_name addr lineNb w
  = Returned 0
      (grow [resolved_record P lineNb addr outLine1 outLine2
               (last_slash outLine2)]
         (pipe_calls P (addr2line_cmd P program_name addr) w) w).
Proof.
  intros H H1 Hne1 H2 Hne2 Hq outLine1 outLine2.
  rewrite (addr2line_opened _ _ lineNb w _ H). unfold pipe_calls. rewrite H.
  assert (Hlen : (2 <= length out)%nat).
  { pose proof (read_line_app fgets_room out) as A1.
    pose proof (read_line_app fgets_room rest) as A2.
    rewrite H1 in A1. rewrite H2 in A2. simpl in A1, A2.
    rewrite <- A1, <- A2, !length_app.
    destruct l1; [contradiction |]. destruct l2; [contradiction |].
    simpl. lia. }
  destruct (length out) as [| n]; [lia |].
  rewrite addr2line_loop_S.
  rewrite (fgets_read _ (mkFILE _ out) _ _ H1 Hne1).
  rewrite (fgets_read _ (mkFILE _ rest) _ _ H2 Hne2).
  rewrite (store_hd _ _ Hne2).
  apply Ascii.eqb_neq in Hq. rewrite Hq. cbn [negb].
  unfold bind at 1. unfold write_cerr.
  rewrite addr2line_loop_S, fgets_eof, pclose_ret.
  rewrite add_cerr_grow, !grow_grow. reflexivity.
Qed.

End Resolver.

(** ** The stack walker *)

Lemma skipn_nth_cons {A} (d : A) : forall (k : nat) (l : list A),
  (k < length l)%nat -> skipn k l = nth k l d :: skipn (S k) l.
Proof.
  induction k as [| k IH]; intros [| x l] Hk; simpl in *; try lia.
  - reflexivity.
  - apply IH. lia.
Qed.

Lemma read_line_nil_inv r s rest :
  read_line (S r) s = ([], rest) -> s = [].
Proof.
  destruct s as [| c t]; [reflexivity |]. cbn [read_line].
  destruct (Ascii.eqb c LF); [discriminate |].
  destruct (read_line r t); discriminate.
Qed.

Lemma commands_launched_app evs1 evs2 :
  commands_launched (evs1 ++ evs2)
  = commands_launched evs1 ++ commands_launched evs2.
Proof.
  induction evs1 as [| [cmd fp | fp] evs1 IH]; simpl; [reflexivity | |];
    now rewrite IH.
Qed.

Section Walker.

Variable P : platform.

Lemma commands_launched_pipe_calls cmd w :
  commands_launched (pipe_calls P cmd w) = [cmd].
Proof. unfold pipe_calls. now destruct (tool_stdout P cmd). Qed.

Lemma frame_step_of_addr2line addr index w r recs evs :
  addr2line P (programName w) addr index w = Returned r (grow recs evs w) ->
  frame_step P addr index w
  = Returned tt
      (grow (recs ++ if r =? 0 then []
                     else [fallback_record index (symbol_of P addr)])
         evs w).
Proof.
  intros H. unfold frame_step, bind, getProgramName. rewrite H.
  destruct (r =? 0); cbn [negb].
  - unfold ret. now rewrite app_nil_r.
  - unfold write_cerr. now rewrite add_cerr_grow, grow_grow, app_nil_r.
Qed.

(** An iteration always returns, after launching the command of its
    frame. *)
Lemma frame_step_returns addr index w :
  exists recs,
    frame_step P addr index w
    = Returned tt
        (grow recs (pipe_calls P (addr2line_cmd P (programName w) addr) w) w).
Proof.
  destruct (addr2line_returns P (programName w) addr index w)
    as (r & recs & H & _).
  rewrite (frame_step_of_addr2line _ _ _ _ _ _ H). eauto.
Qed.

(** On the subprocess behaviours of [one_record], an iteration writes one
    record: the resolved one or the fallback one. *)
Lemma frame_step_one_record addr index w :
  one_record P (programName w) addr = true ->
  exists rec,
    frame_step P addr index w
    = Returned tt
        (grow [rec] (pipe_calls P (addr2line_cmd P (programName w) addr) w) w)
    /\ (rec = fallback_record index (symbol_of P addr) \/
        exists outLine1 outLine2 lastSlashPos,
          rec = resolved_record P index addr outLine1 outLine2 lastSlashPos).
Proof.
  unfold one_record. intros Hone.
  destruct (tool_stdout P (addr2line_cmd P (programName w) addr))
    as [out |] eqn:Hout.
  - destruct (read_line fgets_room out) as [l1 rest1] eqn:H1.
    destruct (read_line fgets_room rest1) as [l2 rest2] eqn:H2.
    destruct l1 as [| c1 l1]; [discriminate |].
    destruct l2 as [| c2 l2].
    + change fgets_room with (S (fgets_room - 1)) in H2.
      apply read_line_nil_inv in H2. subst rest1.
      exists (fallback_record index (symbol_of P addr)). split; [| now left].
      apply (frame_step_of_addr2line addr index w 1 []).
      apply (addr2line_one_line P _ _ _ _ out (c1 :: l1)); easy.
    + destruct (Ascii.eqb c2 QMARK) eqn:Eq.
      * apply Ascii.eqb_eq in Eq. subst c2.
        pose proof (read_line_app fgets_room rest1) as Happ.
        rewrite H2 in Happ. simpl in Happ. subst rest1.
        exists (fallback_record index (symbol_of P addr)). split; [| now left].
        apply (frame_step_of_addr2line addr index w 1 []).
        apply (addr2line_unresolved P _ _ _ _ out (c1 :: l1) (l2 ++ rest2));
          easy.
      * destruct rest2; [| discriminate].
        assert (Hq : hd NUL (c2 :: l2) <> QMARK)
          by (simpl; now apply Ascii.eqb_neq).
        pose proof (addr2line_one_pair P (programName w) addr index w out
                      (c1 :: l1) rest1 (c2 :: l2) Hout H1 ltac:(easy) H2
                      ltac:(easy) Hq) as Hrun.
        cbv zeta in Hrun.
        rewrite (frame_step_of_addr2line _ _ _ _ _ _ Hrun).
        cbn [Z.eqb app]. eexists. split; [reflexivity |]. right. eauto.
  - exists (fallback_record index (symbol_of P addr)). split; [| now left].
    apply (frame_step_of_addr2line addr index w 1 []).
    rewrite (addr2line_popen_failed P _ _ _ _ Hout).
    unfold pipe_calls. now rewrite Hout.
Qed.

Lemma body_is_frame_step buffer nptrs i w :
  (Z.to_nat i < length buffer)%nat ->
  print_stacktrace_body P buffer (map (symbol_of P) buffer) nptrs i w
  = frame_step P (nth (Z.to_nat i) buffer 0) (nptrs - 2 - i - 1) w.
Proof.
  intros Hi. unfold print_stacktrace_body, frame_step.
  rewrite (nth_indep _ [] (symbol_of P 0)) by (now rewrite length_map).
  now rewrite map_nth.
Qed.

(** The [for] loop started at [i] handles the frames at positions
    [i .. nptrs - 3] of the buffer, in that order. *)
Lemma loop_is_walk buffer : forall fuel i w,
  0 <= i ->
  (Z.to_nat (Z.of_nat (length buffer) - 2 - i) < fuel)%nat ->
  print_stacktrace_loop P fuel buffer (map (symbol_of P) buffer)
    (Z.of_nat (length buffer)) i w
  = walk P (skipn (Z.to_nat i) (firstn (length buffer - 2) buffer)) w.
Proof.
  induction fuel as [| fuel IH]; intros i w Hi Hf; [lia |].
  cbn [print_stacktrace_loop].
  destruct (i <? Z.of_nat (length buffer) - 2) eqn:E.
  - apply Z.ltb_lt in E.
    assert (Hk : (Z.to_nat i < length buffer - 2)%nat) by lia.
    rewrite (skipn_nth_cons 0 (Z.to_nat i))
      by (rewrite length_firstn; lia).
    cbn [walk]. unfold bind.
    rewrite body_is_frame_step by lia.
    rewrite nth_firstn.
    destruct (Nat.ltb_spec (Z.to_nat i) (length buffer - 2)); [| lia].
    rewrite length_skipn, length_firstn.
    replace (Z.of_nat (Nat.min (length buffer - 2) (length buffer)
                       - S (Z.to_nat i)))
      with (Z.of_nat (length buffer) - 2 - i - 1) by lia.
    destruct (frame_step P (nth (Z.to_nat i) buffer 0)
                (Z.of_nat (length buffer) - 2 - i - 1) w); try reflexivity.
    rewrite IH by lia.
    replace (Z.to_nat (i + 1)) with (S (Z.to_nat i)) by lia. reflexivity.
  - apply Z.ltb_ge in E.
    rewrite skipn_all2 by (rewrite length_firstn; lia). reflexivity.
Qed.

Lemma print_stacktrace_is_walk calledFromSigInt w :
  symbols_available P = true ->
  print_stacktrace P calledFromSigInt w
  = walk P (retained P calledFromSigInt) w.
Proof.
  intros Hs. unfold print_stacktrace, backtrace_symbols, retained.
  rewrite Hs.
  destruct (calledFromSigInt =? 0); cbn [negb];
    rewrite loop_is_walk by lia; reflexivity.
Qed.

Lemma print_stacktrace_no_symbols calledFromSigInt w :
  symbols_available P = false ->
  print_stacktrace P calledFromSigInt w
  = Exited by_exit EXIT_FAILURE
      (grow [str "backtrace_symbols" ++ str ": " ++ strerror_errno P ++ endl]
         [] w).
Proof.
  intros Hs. unfold print_stacktrace, backtrace_symbols. rewrite Hs.
  unfold bind, perror, write_cerr, exit. now rewrite add_cerr_grow.
Qed.

(** The walk always returns, after launching one command per frame. *)
Lemma walk_returns : forall frames w,
  exists recs evs,
    walk P frames w = Returned tt (grow recs evs w) /\
    commands_launched evs = map (addr2line_cmd P (programName w)) frames.
Proof.
  induction frames as [| a frames IH]; intros w.
  - exists [], []. cbn [walk]. unfold ret. now rewrite grow_nil.
  - destruct (frame_step_returns a (Z.of_nat (length frames)) w)
      as (recs1 & H1).
    cbn [walk]. unfold bind. rewrite H1.
    destruct (IH (grow recs1
                    (pipe_calls P (addr2line_cmd P (programName w) a) w) w))
      as (recs2 & evs2 & H2 & Hc).
    rewrite H2, grow_grow. eexists. eexists. split; [reflexivity |].
    rewrite commands_launched_app, commands_launched_pipe_calls, Hc.
    reflexivity.
Qed.

(** When every frame is resolved on a behaviour of [one_record], the walk
    writes one record per frame, and the record of the frame at position
    [k] carries the index [length frames - 1 - k]. *)
Lemma walk_one_record : forall frames w,
  (forall a, In a frames -> one_record P (programName w) a = true) ->
  exists recs evs,
    walk P frames w = Returned tt (grow recs evs w) /\
    length recs = length frames /\
    forall k, (k < length frames)%nat ->
      let addr := nth k frames 0 in
      let index := Z.of_nat (length frames - 1 - k) in
      nth k recs [] = fallback_record index (symbol_of P addr) \/
      exists outLine1 outLine2 lastSlashPos,
        nth k recs []
        = resolved_record P index addr outLine1 outLine2 lastSlashPos.
Proof.
  induction frames as [| a frames IH]; intros w Hone.
  - exists [], []. cbn [walk]. unfold ret. rewrite grow_nil.
    split; [reflexivity |]. split; [reflexivity |]. simpl. intros k Hk. lia.
  - destruct (frame_step_one_record a (Z.of_nat (length frames)) w)
      as (rec & H1 & Hrec); [apply Hone; now left |].
    cbn [walk]. unfold bind. rewrite H1.
    destruct (IH (grow [rec]
                    (pipe_calls P (addr2line_cmd P (programName w) a) w) w))
      as (recs2 & evs2 & H2 & Hlen & Hnth).
    { intros b Hb. rewrite programName_grow. apply Hone. now right. }
    rewrite H2, grow_grow. eexists. eexists. split; [reflexivity |].
    split; [simpl; now rewrite Hlen |].
    intros [| k] Hk; cbn [length nth app] in *.
    + replace (S (length frames) - 1 - 0)%nat with (length frames) by lia.
      exact Hrec.
    + replace (S (length frames) - 1 - S k)%nat
        with (length frames - 1 - k)%nat by lia.
      apply Hnth. lia.
Qed.

End Walker.

(** ** Open streams *)

Lemma open_pipes_grow_pipe_calls (P : platform) recs cmd w :
  open_pipes (grow recs (pipe_calls P cmd w) w) = open_pipes w.
Proof.
  unfold open_pipes, pipe_calls. rewrite pipe_log_grow, fold_left_app.
  destruct (tool_stdout P cmd); simpl; [| reflexivity].
  now rewrite Nat.eqb_refl.
Qed.

Lemma walk_open_pipes (P : platform) : forall frames w,
  exists w', walk P frames w = Returned tt w' /\ open_pipes w' = open_pipes w.
Proof.
  induction frames as [| a frames IH]; intros w.
  - exists w. split; reflexivity.
  - destruct (frame_step_returns P a (Z.of_nat (length frames)) w)
      as (recs & H).
    cbn [walk]. unfold bind. rewrite H.
    destruct (IH (grow recs
                    (pipe_calls P (addr2line_cmd P (programName w) a) w) w))
      as (w' & Hw & Ho).
    exists w'. split; [exact Hw |].
    now rewrite Ho, open_pipes_grow_pipe_calls.
Qed.

(** * The claims *)

(** ** C1 *)

(** C1, as stated, fails on two inputs.  When the subprocess writes two
    pairs of lines for the one retained frame, two records are written for
    that frame, both with index 0; when [backtrace_symbols] returns NULL,
    no record is written for the retained frame and the process exits. *)
Lemma print_stacktrace_not_one_line_per_frame :
  (length (retained Demo.two_pairs 0) = 1%nat /\
   exists w',
     print_stacktrace Demo.two_pairs 0 Demo.started = Returned tt w' /\
     cerr w' = [str "[0] 0x402247 in foo at foo.hpp:9" ++ endl;
                str "[0] 0x402247 in main at main.cpp:6" ++ endl]) /\
  (length (retained Demo.no_symbols 0) = 1%nat /\
   exists w',
     print_stacktrace Demo.no_symbols 0 Demo.started
     = Exited by_exit EXIT_FAILURE w' /\
     cerr w' = [str "backtrace_symbols: Cannot allocate memory" ++ endl]).
Proof.
  split; (split; [reflexivity |]); eexists; split;
    try (vm_compute; reflexivity).
Qed.

(** C1 (amended).  Once [backtrace_symbols] has returned the fallback
    strings, and when for every retained frame the subprocess does one of:
    cannot be opened, writes a single line, writes a second line that
    starts with '?', writes exactly one pair of lines; [print_stacktrace]
    returns after writing exactly one record per retained frame, the
    fallback one or the resolved one, and with [D] retained frames the
    record of the frame at position [k] carries the index [D - 1 - k]:
    the indices are D-1, D-2, ..., 0. *)
Theorem print_stacktrace_one_record_per_frame (P : platform)
    (calledFromSigInt : Z) (w : world) :
  symbols_available P = true ->
  (forall a, In a (retained P calledFromSigInt) ->
             one_record P (programName w) a = true) ->
  let D := length (retained P calledFromSigInt) in
  exists recs evs,
    print_stacktrace P calledFromSigInt w = Returned tt (grow recs evs w) /\
    length recs = D /\
    forall k, (k < D)%nat ->
      let addr := nth k (retained P calledFromSigInt) 0 in
      let index := Z.of_nat (D - 1 - k) in
      nth k recs [] = str "[" ++ itos index ++ str "] "
                        ++ symbol_of P addr ++ endl \/
      exists outLine1 outLine2 lastSlashPos,
        nth k recs []
        = str "[" ++ itos index ++ str "] " ++ show_ptr P addr ++ str " in "
            ++ cstr outLine1 ++ str " at "
            ++ cstr (skipn lastSlashPos outLine2).
Proof.
  intros Hs Hone D.
  rewrite print_stacktrace_is_walk by exact Hs.
  exact (walk_one_record P (retained P calledFromSigInt) w Hone).
Qed.

Lemma print_stacktrace_one_record_per_frame_witness :
  exists recs evs,
    print_stacktrace Demo.mixed 0 Demo.started
    = Returned tt (grow recs evs Demo.started) /\
    length recs = 3%nat /\
    forall k, (k < 3)%nat ->
      nth k recs []
      = str "[" ++ itos (Z.of_nat (3 - 1 - k)) ++ str "] "
          ++ Demo.symbol (nth k [4201488; 4201810; 4203079] 0) ++ endl \/
      exists outLine1 outLine2 lastSlashPos,
        nth k recs []
        = str "[" ++ itos (Z.of_nat (3 - 1 - k)) ++ str "] "
            ++ Demo.hex (nth k [4201488; 4201810; 4203079] 0) ++ str " in "
            ++ cstr outLine1 ++ str " at "
            ++ cstr (skipn lastSlashPos outLine2).
Proof.
  apply (print_stacktrace_one_record_per_frame Demo.mixed 0 Demo.started).
  - reflexivity.
  - intros a Ha. vm_compute in Ha.
    destruct Ha as [<- | [<- | [<- | []]]]; vm_compute; reflexivity.
Defined.

(** The trace of [CRITICAL] in [A::foo], computed: a resolved frame, a
    frame the tool does not know, and a frame for which [popen] fails. *)
Example print_stacktrace_mixed_trace :
  exists w',
    print_stacktrace Demo.mixed 0 Demo.started = Returned tt w' /\
    cerr w' = [str "[2] 0x401c10 in A::foo(bool) at main.cpp:37" ++ [CR; LF];
               str "[1] ./demo() [0x401d52]" ++ endl;
               str "[0] ./demo() [0x402247]" ++ endl].
Proof. eexists. split; vm_compute; reflexivity. Qed.

(** A symbol longer than the line buffer is read in two pieces, which are
    taken for the pair, and the location line is then taken for the start
    of a second pair: the frame gets a resolved record and a fallback
    record. *)
Example print_stacktrace_long_symbol_trace :
  exists w',
    print_stacktrace Demo.long_symbol 0 Demo.started = Returned tt w' /\
    cerr w' = [str "[0] 0x402247 in " ++ repeat "a"%char 1033 ++ str " at "
                 ++ repeat "a"%char 7 ++ endl;
               str "[0] ./demo() [0x402247]" ++ endl].
Proof. eexists. split; vm_compute; reflexivity. Qed.

(** ** C2 *)

(** C2.  At a subprocess that writes nothing on its standard output the
    first [fgets] returns NULL, the [while] body never runs, and
    [addr2line] returns 0 without having written a record; the iteration
    of the caller then writes no fallback record either. *)
Theorem addr2line_no_output_returns_zero :
  (exists w',
     addr2line Demo.silent (Some (str "./demo")) 4203079 0 Demo.started
     = Returned 0 w' /\ cerr w' = []) /\
  (exists w',
     frame_step Demo.silent 4203079 0 Demo.started = Returned tt w' /\
     cerr w' = []).
Proof. split; eexists; split; vm_compute; reflexivity. Qed.

(** ** C3 *)

(** C3, as stated, fails when the first line is longer than one [fgets]
    call takes.  On a symbol of 1040 characters followed by the line
    [??:0], the second output line starts with '?', but the second [fgets]
    reads the end of the first line: [addr2line] writes a record made of
    the two pieces of the symbol before it returns 1, so the frame gets
    that record in front of the fallback one.  With a third line after
    them [addr2line] returns 0 and the fallback record is not written at
    all. *)
Lemma unresolved_marker_after_long_line :
  (exists w',
     print_stacktrace_body DemoLong.long_symbol_unknown Demo.stack
       (map Demo.symbol Demo.stack) 4 1 Demo.started = Returned tt w' /\
     cerr w' = [str "[0] 0x402247 in " ++ repeat "a"%char 1033
                  ++ str " at " ++ repeat "a"%char 7 ++ endl;
                str "[0] ./demo() [0x402247]" ++ endl]) /\
  (exists w',
     addr2line DemoLong.long_symbol_unknown_more (Some (str "./demo"))
       4203079 0 Demo.started = Returned 0 w' /\
     cerr w' = [str "[0] 0x402247 in " ++ repeat "a"%char 1033
                  ++ str " at " ++ repeat "a"%char 7 ++ endl;
                str "[0] 0x402247 in ??:0 at x" ++ endl]) /\
  (exists w',
     print_stacktrace_body DemoLong.long_symbol_unknown_more Demo.stack
       (map Demo.symbol Demo.stack) 4 1 Demo.started = Returned tt w' /\
     cerr w' = [str "[0] 0x402247 in " ++ repeat "a"%char 1033
                  ++ str " at " ++ repeat "a"%char 7 ++ endl;
                str "[0] 0x402247 in ??:0 at x" ++ endl]).
Proof.
  repeat split; eexists; split; vm_compute; reflexivity.
Qed.

(** C3 (amended).  When the first [fgets] of a resolution reads a line (a
    line being what one [fgets] call reads, at most 1033 characters) and
    what the subprocess wrote after it starts with '?', [addr2line] closes
    the pipe and returns 1 without writing a record, and the iteration of
    [print_stacktrace] for that frame writes exactly the string
    [backtrace_symbols] gave for the address, after the index in brackets
    and a space, ended by [std::endl]. *)
Theorem unresolved_frame_prints_fallback (P : platform)
    (buffer : list pointer) (nptrs i : Z) (w : world)
    (out l1 rest : list ascii) :
  0 <= i -> (Z.to_nat i < length buffer)%nat ->
  let addr := nth (Z.to_nat i) buffer 0 in
  let cmd := addr2line_cmd P (programName w) addr in
  let fp := length (pipe_log w) in
  tool_stdout P cmd = Some out ->
  read_line fgets_room out = (l1, QMARK :: rest) -> l1 <> [] ->
  addr2line P (programName w) addr (nptrs - 2 - i - 1) w
  = Returned 1 (grow [] [Popen cmd (Some fp); Pclose fp] w) /\
  print_stacktrace_body P buffer (map (symbol_of P) buffer) nptrs i w
  = Returned tt
      (grow [str "[" ++ itos (nptrs - 2 - i - 1) ++ str "] "
               ++ symbol_of P addr ++ endl]
         [Popen cmd (Some fp); Pclose fp] w).
Proof.
  intros Hi Hlen addr cmd fp Hout H1 Hne.
  assert (Hrun : addr2line P (programName w) addr (nptrs - 2 - i - 1) w
                 = Returned 1 (grow [] [Popen cmd (Some fp); Pclose fp] w)).
  { rewrite (addr2line_unresolved P _ _ _ _ out l1 rest Hout H1 Hne).
    unfold pipe_calls. fold cmd. now rewrite Hout. }
  split; [exact Hrun |].
  rewrite body_is_frame_step by exact Hlen. fold addr.
  now rewrite (frame_step_of_addr2line P _ _ _ _ _ _ Hrun).
Qed.

Lemma unresolved_frame_prints_fallback_witness :
  addr2line Demo.unknown (Some (str "./demo")) 4203079 0 Demo.started
  = Returned 1
      (grow [] [Popen (str "addr2line -C -f -e ./demo 0x402247") (Some 0%nat);
                Pclose 0] Demo.started) /\
  print_stacktrace_body Demo.unknown Demo.stack
    (map Demo.symbol Demo.stack) 4 1 Demo.started
  = Returned tt
      (grow [str "[0] ./demo() [0x402247]" ++ endl]
         [Popen (str "addr2line -C -f -e ./demo 0x402247") (Some 0%nat);
          Pclose 0] Demo.started).
Proof.
  apply (unresolved_frame_prints_fallback Demo.unknown Demo.stack 4 1
           Demo.started (str "??" ++ endl ++ str "??:0" ++ endl)
           (str "??" ++ endl) (str "?:0" ++ endl)).
  - lia.
  - simpl. lia.
  - reflexivity.
  - vm_compute. reflexivity.
  - discriminate.
Defined.

(** ** C4 *)

(** C4.  When the body of the protected region throws a Critical Error
    with message [m], function [f], file [fl] and line [n], the boundary
    writes the line [m (in f at fl:n)], ended by [std::endl], and calls
    [exit(EXIT_FAILURE)]; for the error of the README the text of that
    line is [There has been a critical error ! (in main at main.cpp:6)]. *)
Theorem exception_boundary_prints_critical_error
    (argv0 : option (list ascii)) (body : M unit)
    (m f fl : list ascii) (n : Z) (w w_init w_thrown : world) :
  init_exceptions argv0 w = Returned tt w_init ->
  body w_init = Thrown (mkCriticalException m f fl n) w_thrown ->
  BEGIN_END_EXCEPTIONS argv0 body w
  = Exited by_exit EXIT_FAILURE
      (add_cerr ((m ++ str " (in " ++ f ++ str " at " ++ fl ++ str ":"
                    ++ itos n ++ str ")") ++ endl) w_thrown) /\
  toStr (mkCriticalException (str "There has been a critical error !")
           (str "main") (str "main.cpp") 6)
  = str "There has been a critical error ! (in main at main.cpp:6)".
Proof.
  intros Hinit Hbody. split; [| reflexivity].
  unfold BEGIN_END_EXCEPTIONS, bind. rewrite Hinit.
  unfold try_catch. rewrite Hbody. reflexivity.
Qed.

Lemma exception_boundary_prints_critical_error_witness :
  BEGIN_END_EXCEPTIONS (Some (str "./demo"))
    (CRITICAL Demo.resolving (str "There has been a critical error !")
       (str "main") (str "main.cpp") 6) initial_world
  = Exited by_exit EXIT_FAILURE
      (grow [str "[0] 0x402247 in main at main.cpp:6 (discriminator 1)"
               ++ endl;
             str "There has been a critical error ! (in main at main.cpp:6)"
               ++ endl]
         [Popen (str "addr2line -C -f -e ./demo 0x402247") (Some 0%nat);
          Pclose 0] Demo.started).
Proof.
  refine (eq_trans
    (proj1 (exception_boundary_prints_critical_error (Some (str "./demo"))
       (CRITICAL Demo.resolving (str "There has been a critical error !")
          (str "main") (str "main.cpp") 6)
       (str "There has been a critical error !") (str "main")
       (str "main.cpp") 6 initial_world Demo.started
       (grow [str "[0] 0x402247 in main at main.cpp:6 (discriminator 1)"
                ++ endl]
          [Popen (str "addr2line -C -f -e ./demo 0x402247") (Some 0%nat);
           Pclose 0] Demo.started) _ _)) _);
    vm_compute; reflexivity.
Defined.

(** ** C5 *)

(** C5, as stated, fails when [backtrace_symbols] returns NULL: the handler
    for SIGSEGV then leaves through the [exit] call of [print_stacktrace],
    and the only record written is the one of [perror]; the line describing
    the signal is never written. *)
Lemma posix_signal_handler_without_description :
  exists w',
    posix_signal_handler Demo.no_symbols SIGSEGV Demo.started
    = Exited by_exit EXIT_FAILURE w' /\
    cerr w' = [str "backtrace_symbols: Cannot allocate memory" ++ endl] /\
    ~ In (str "Caught SIGSEGV: segfault" ++ endl) (cerr w').
Proof.
  eexists. split; [vm_compute; reflexivity |].
  split; [reflexivity |].
  simpl. intros [H | []]. discriminate H.
Qed.

(** C5 (amended).  When [backtrace_symbols] does not return NULL, the
    handler invoked with signal [sig] first runs [print_stacktrace(1)],
    which returns, then writes exactly one line: the one of SIGABRT,
    SIGFPE, SIGILL, SIGINT or SIGSEGV when [sig] is that signal, and the
    termination-request line for every other value, SIGTERM included;
    then it leaves through [_Exit(EXIT_FAILURE)] and never returns. *)
Theorem posix_signal_handler_reports (P : platform) (sig : Z) (w : world) :
  symbols_available P = true ->
  exists w1 description,
    print_stacktrace P 1 w = Returned tt w1 /\
    posix_signal_handler P sig w
    = Exited by__Exit EXIT_FAILURE (add_cerr (description ++ endl) w1) /\
    (sig = SIGABRT ->
     description
     = str "Caught SIGABRT: usually caused by an abort() or assert()") /\
    (sig = SIGFPE ->
     description
     = str "Caught SIGFPE: arithmetic exception, such as divide by zero") /\
    (sig = SIGILL ->
     description = str "Caught SIGILL: illegal instruction") /\
    (sig = SIGINT ->
     description
     = str "Caught SIGINT: interactive attention signal, probably a ctrl+c")
    /\
    (sig = SIGSEGV -> description = str "Caught SIGSEGV: segfault") /\
    (sig <> SIGABRT -> sig <> SIGFPE -> sig <> SIGILL -> sig <> SIGINT ->
     sig <> SIGSEGV ->
     description
     = str "Caught SIGTERM: a termination request was sent to the program").
Proof.
  intros Hs.
  destruct (walk_returns P (retained P 1) w) as (recs & evs & Hwalk & _).
  rewrite <- print_stacktrace_is_walk in Hwalk by exact Hs.
  exists (grow recs evs w).
  unfold posix_signal_handler, bind. rewrite Hwalk.
  destruct (Z.eqb_spec sig SIGABRT) as [-> | H1].
  { eexists. split; [reflexivity |]. split; [reflexivity |].
    repeat split; intros; try reflexivity; try discriminate; congruence. }
  destruct (Z.eqb_spec sig SIGFPE) as [-> | H2].
  { eexists. split; [reflexivity |]. split; [reflexivity |].
    repeat split; intros; try reflexivity; try discriminate; congruence. }
  destruct (Z.eqb_spec sig SIGILL) as [-> | H3].
  { eexists. split; [reflexivity |]. split; [reflexivity |].
    repeat split; intros; try reflexivity; try discriminate; congruence. }
  destruct (Z.eqb_spec sig SIGINT) as [-> | H4].
  { eexists. split; [reflexivity |]. split; [reflexivity |].
    repeat split; intros; try reflexivity; try discriminate; congruence. }
  destruct (Z.eqb_spec sig SIGSEGV) as [-> | H5].
  { eexists. split; [reflexivity |]. split; [reflexivity |].
    repeat split; intros; try reflexivity; try discriminate; congruence. }
  eexists. split; [reflexivity |]. split; [reflexivity |].
  repeat split; intros; try reflexivity; congruence.
Qed.

Lemma posix_signal_handler_reports_witness :
  exists w1 description,
    print_stacktrace Demo.resolving 1 Demo.started = Returned tt w1 /\
    posix_signal_handler Demo.resolving SIGSEGV Demo.started
    = Exited by__Exit EXIT_FAILURE (add_cerr (description ++ endl) w1) /\
    (SIGSEGV = SIGABRT ->
     description
     = str "Caught SIGABRT: usually caused by an abort() or assert()") /\
    (SIGSEGV = SIGFPE ->
     description
     = str "Caught SIGFPE: arithmetic exception, such as divide by zero") /\
    (SIGSEGV = SIGILL ->
     description = str "Caught SIGILL: illegal instruction") /\
    (SIGSEGV = SIGINT ->
     description
     = str "Caught SIGINT: interactive attention signal, probably a ctrl+c")
    /\
    (SIGSEGV = SIGSEGV -> description = str "Caught SIGSEGV: segfault") /\
    (SIGSEGV <> SIGABRT -> SIGSEGV <> SIGFPE -> SIGSEGV <> SIGILL ->
     SIGSEGV <> SIGINT -> SIGSEGV <> SIGSEGV ->
     description
     = str "Caught SIGTERM: a termination request was sent to the program").
Proof.
  apply (posix_signal_handler_reports Demo.resolving SIGSEGV Demo.started).
  reflexivity.
Defined.

(** ** C6 *)




(** ** C7 *)

(** C7, as stated, fails on two kinds of successful resolution.  On a
    symbol of 2070 characters followed by its location [addr2line] returns
    0 after writing two records: the first has pieces of the symbol line
    for symbol and for location, the second has the end of the symbol line
    for symbol.  On a first line with a carriage return in the middle, the
    symbol printed is cut there: [foo] and not the line [foo\rbar] without
    its newline. *)
Lemma addr2line_long_or_broken_first_line :
  (exists w',
     addr2line DemoLong.very_long_symbol (Some (str "./demo")) 4203079 0
       Demo.started = Returned 0 w' /\
     cerr w' = [str "[0] 0x402247 in " ++ repeat "a"%char 1033
                  ++ str " at " ++ repeat "a"%char 1033;
                str "[0] 0x402247 in aaaa at main.cpp:6" ++ endl]) /\
  (exists w',
     addr2line DemoLong.cr_inside (Some (str "./demo")) 4203079 0
       Demo.started = Returned 0 w' /\
     cerr w' = [str "[0] 0x402247 in foo at main.cpp:6" ++ endl]).
Proof.
  split; eexists; split; vm_compute; reflexivity.
Qed.

(** C7 (amended).  When [fgets] reads the output of the subprocess as
    exactly two lines (a line being what one [fgets] call reads, at most
    1033 characters) and the second does not start with '?', [addr2line]
    returns 0 after writing the single record
    [[lineNb] addr in symbol at location], where [symbol] is the first line
    cut at its first carriage return, newline or NUL (it holds none of
    them, and what was cut off is empty or starts with one of them), and
    [location] is what follows the last '/' of the second line (the whole
    line when it has none), so it holds no '/'; the second line is taken as
    a C string, which a NUL byte ends, and keeps its newline. *)
Theorem addr2line_resolved_output (P : platform)
    (program_name : option (list ascii)) (addr : pointer) (lineNb : Z)
    (w : world) (out l1 rest l2 : list ascii) :
  let cmd := addr2line_cmd P program_name addr in
  let fp := length (pipe_log w) in
  tool_stdout P cmd = Some out ->
  read_line fgets_room out = (l1, rest) -> l1 <> [] ->
  read_line fgets_room rest = (l2, []) -> l2 <> [] ->
  hd NUL l2 <> QMARK ->
  exists symbol location,
    addr2line P program_name addr lineNb w
    = Returned 0
        (grow [str "[" ++ itos lineNb ++ str "] " ++ show_ptr P addr
                 ++ str " in " ++ symbol ++ str " at " ++ location]
           [Popen cmd (Some fp); Pclose fp] w) /\
    (forall c, In c symbol -> c <> NUL /\ c <> CR /\ c <> LF) /\
    (exists cut, l1 = symbol ++ cut /\
                 (cut = [] \/
                  exists c cut', cut = c :: cut' /\
                                 (c = NUL \/ c = CR \/ c = LF))) /\
    ~ In SLASH location /\
    (cstr l2 = location \/ exists dir, cstr l2 = dir ++ SLASH :: location).
Proof.
  intros cmd fp Hout H1 Hne1 H2 Hne2 Hq.
  pose proof (addr2line_one_pair P program_name addr lineNb w out l1 rest l2
                Hout H1 Hne1 H2 Hne2 Hq) as Hrun.
  cbv zeta in Hrun.
  assert (Hl1 : (length l1 < LINE_BUF)%nat).
  { pose proof (read_line_fst_length _ _ _ _ H1). pose proof fgets_room_lt.
    lia. }
  assert (Hl2 : (length l2 < LINE_BUF)%nat).
  { pose proof (read_line_fst_length _ _ _ _ H2). pose proof fgets_room_lt.
    lia. }
  exists (until_eol l1).
  exists (cstr (skipn (last_slash (store l2 (uninit_outLine2 P)))
                  (store l2 (uninit_outLine2 P)))).
  split.
  - rewrite Hrun. unfold resolved_record, pipe_calls. fold cmd.
    rewrite Hout, (cstr_strip_eol_store l1 _ Hl1). reflexivity.
  - destruct (until_eol_spec l1) as [Hsym Hcut].
    destruct (cstr_last_slash_store l2 (uninit_outLine2 P) Hl2)
      as [Hno Hsuffix].
    repeat split; try assumption; apply Hsym; assumption.
Qed.

Lemma addr2line_resolved_output_witness :
  exists symbol location,
    addr2line Demo.resolving (Some (str "./demo")) 4203079 0 Demo.started
    = Returned 0
        (grow [str "[" ++ itos 0 ++ str "] " ++ Demo.hex 4203079
                 ++ str " in " ++ symbol ++ str " at " ++ location]
           [Popen (addr2line_cmd Demo.resolving (Some (str "./demo")) 4203079)
              (Some 0%nat); Pclose 0] Demo.started) /\
    (forall c, In c symbol -> c <> NUL /\ c <> CR /\ c <> LF) /\
    (exists cut, str "main" ++ endl = symbol ++ cut /\
                 (cut = [] \/
                  exists c cut', cut = c :: cut' /\
                                 (c = NUL \/ c = CR \/ c = LF))) /\
    ~ In SLASH location /\
    (cstr (str "/home/user/demo/main.cpp:6 (discriminator 1)" ++ endl)
     = location \/
     exists dir,
       cstr (str "/home/user/demo/main.cpp:6 (discriminator 1)" ++ endl)
       = dir ++ SLASH :: location).
Proof.
  apply (addr2line_resolved_output Demo.resolving (Some (str "./demo"))
           4203079 0 Demo.started
           (str "main" ++ endl
              ++ str "/home/user/demo/main.cpp:6 (discriminator 1)" ++ endl)
           (str "main" ++ endl)
           (str "/home/user/demo/main.cpp:6 (discriminator 1)" ++ endl)
           (str "/home/user/demo/main.cpp:6 (discriminator 1)" ++ endl)).
  - reflexivity.
  - vm_compute. reflexivity.
  - discriminate.
  - vm_compute. reflexivity.
  - discriminate.
  - discriminate.
Defined.

(** The record of the README, computed. *)
Example addr2line_demo_record :
  exists w',
    addr2line Demo.resolving (Some (str "./demo")) 4203079 0 Demo.started
    = Returned 0 w' /\
    cerr w' = [str "[0] 0x402247 in main at main.cpp:6 (discriminator 1)"
                 ++ endl].
Proof. eexists. split; vm_compute; reflexivity. Qed.

(** ** C8 *)

(** C8.  [addr2line] always returns; when [popen] gave a stream, the calls
    it made on the pipe API are that [popen] followed by exactly one
    [pclose] of the stream, whether it returns 0 or 1, and when [popen]
    returned NULL it made no other call.  In both cases the streams open
    when it returns are those that were open when it was called, and so it
    is after any sequence of resolutions made by the walk over a list of
    frames. *)
Theorem addr2line_closes_pipe_once (P : platform)
    (program_name : option (list ascii)) (addr : pointer) (lineNb : Z)
    (w : world) :
  let cmd := addr2line_cmd P program_name addr in
  let fp := length (pipe_log w) in
  (exists r recs w',
     addr2line P program_name addr lineNb w = Returned r w' /\
     (r = 0 \/ r = 1) /\
     w' = grow recs
            (match tool_stdout P cmd with
             | Some _ => [Popen cmd (Some fp); Pclose fp]
             | None => [Popen cmd None]
             end) w /\
     open_pipes w' = open_pipes w) /\
  (forall frames, exists w',
     walk P frames w = Returned tt w' /\ open_pipes w' = open_pipes w).
Proof.
  intros cmd fp. split; [| intros frames; apply walk_open_pipes].
  destruct (addr2line_returns P program_name addr lineNb w)
    as (r & recs & Hrun & Hr).
  exists r, recs. eexists. split; [exact Hrun |]. split; [exact Hr |].
  split; [reflexivity |]. apply open_pipes_grow_pipe_calls.
Qed.

(** ** C9 *)

(** C9.  With an empty program name, and with none, on a platform whose
    subprocess writes nothing on its standard output, [print_stacktrace]
    returns without having written any record although one frame is
    retained: the index and the fallback string of that frame are not
    printed. *)
Theorem print_stacktrace_unnamed_prints_nothing :
  length (retained Demo.silent 0) = 1%nat /\
  (exists w',
     print_stacktrace Demo.silent 0 Demo.started_unnamed = Returned tt w' /\
     cerr w' = []) /\
  (exists w',
     print_stacktrace Demo.silent 0 initial_world = Returned tt w' /\
     cerr w' = []).
Proof.
  split; [reflexivity |].
  split; eexists; split; vm_compute; reflexivity.
Qed.

(** ** C10 *)

(** C10.  When [backtrace_symbols] returns NULL, [print_stacktrace] writes
    the [perror] record only (no frame, no call on the pipe API) and
    leaves through [exit(EXIT_FAILURE)]; the signal handler and [CRITICAL]
    end in the same state: the description of the signal is not written
    and the exception is not thrown. *)
Theorem print_stacktrace_symbols_unavailable (P : platform)
    (calledFromSigInt sig : Z) (s func fl : list ascii) (n : Z)
    (w : world) :
  symbols_available P = false ->
  let w' := add_cerr (str "backtrace_symbols: " ++ strerror_errno P ++ endl)
              w in
  print_stacktrace P calledFromSigInt w = Exited by_exit EXIT_FAILURE w' /\
  posix_signal_handler P sig w = Exited by_exit EXIT_FAILURE w' /\
  CRITICAL P s func fl n w = Exited by_exit EXIT_FAILURE w'.
Proof.
  intros Hs w'.
  assert (H : forall flag,
             print_stacktrace P flag w = Exited by_exit EXIT_FAILURE w').
  { intros flag. rewrite print_stacktrace_no_symbols by exact Hs.
    unfold w'. now rewrite add_cerr_grow. }
  split; [apply H |].
  split.
  - unfold posix_signal_handler, bind. now rewrite H.
  - unfold CRITICAL, bind. now rewrite H.
Qed.

Lemma print_stacktrace_symbols_unavailable_witness :
  let w' := add_cerr (str "backtrace_symbols: Cannot allocate memory" ++ endl)
              Demo.started in
  print_stacktrace Demo.no_symbols 0 Demo.started
  = Exited by_exit EXIT_FAILURE w' /\
  posix_signal_handler Demo.no_symbols SIGSEGV Demo.started
  = Exited by_exit EXIT_FAILURE w' /\
  CRITICAL Demo.no_symbols (str "Foo crashed") (str "foo") (str "main.cpp") 37
    Demo.started
  = Exited by_exit EXIT_FAILURE w'.
Proof.
  apply (print_stacktrace_symbols_unavailable Demo.no_symbols 0 SIGSEGV
           (str "Foo crashed") (str "foo") (str "main.cpp") 37 Demo.started).
  reflexivity.
Defined.

(** * Further properties of the header *)

(** ** Signal registration *)

Lemma handler_of_add_sig s h sig w :
  handler_of sig (add_sig s h w)
  = if s =? sig then h else handler_of sig w.
Proof. reflexivity. Qed.

(** X1.  [init_exceptions(programName)] returns after installing
    [posix_signal_handler] for SIGABRT, SIGFPE, SIGILL, SIGINT, SIGSEGV and
    SIGTERM and recording the program name; the handler of every other
    signal is the one it was, nothing is written to [std::cerr] and no
    subprocess is started. *)
Theorem init_exceptions_registers_handlers
    (programName0 : option (list ascii)) (w : world) :
  exists w',
    init_exceptions programName0 w = Returned tt w' /\
    programName w' = programName0 /\
    cerr w' = cerr w /\
    pipe_log w' = pipe_log w /\
    forall sig,
      handler_of sig w'
      = if existsb (Z.eqb sig) handled_signals
        then Handler_posix_signal_handler
        else handler_of sig w.
Proof.
  eexists. split; [reflexivity |].
  repeat split.
  intros sig. unfold handler_of. cbn [sig_table set_programName add_sig
    handler_in handled_signals existsb].
  unfold SIGABRT, SIGFPE, SIGILL, SIGINT, SIGSEGV, SIGTERM.
  repeat match goal with
         | |- context [?a =? sig] =>
             destruct (Z.eqb_spec a sig); [subst sig |]
         end;
    repeat match goal with
           | |- context [sig =? ?a] => destruct (Z.eqb_spec sig a)
           end;
    try reflexivity; try lia; try congruence.
Qed.

(** ** The scanning loops on arbitrary buffers *)

Lemma slash_loop_bound fuel : forall pre suf pos,
  (pos <= length pre)%nat ->
  (slash_loop fuel (length pre) pos (pre ++ suf)
   <= length pre + length (cstr suf))%nat.
Proof.
  induction fuel as [| fuel IH]; intros pre suf pos Hpos; simpl; [lia |].
  destruct suf as [| c t].
  - rewrite nth_overflow by (rewrite length_app; simpl; lia). simpl. lia.
  - rewrite nth_middle. simpl.
    destruct (Ascii.eqb c NUL); simpl; [lia |].
    replace (pre ++ c :: t) with ((pre ++ [c]) ++ t)
      by (now rewrite <- app_assoc).
    replace (S (length pre)) with (length (pre ++ [c]))
      by (rewrite length_app; simpl; lia).
    etransitivity.
    + apply IH. destruct (Ascii.eqb c SLASH); rewrite length_app; simpl; lia.
    + rewrite length_app. simpl. lia.
Qed.

(** X6.  Whatever a line buffer holds, [lastSlashPos] is at most the length
    of the C string in it, so [outLine2 + lastSlashPos] points into that
    string (at its NUL at the latest), and what is printed from there is a
    suffix of the string. *)
Theorem last_slash_within_string (outLine2 : list ascii) :
  (last_slash outLine2 <= length (cstr outLine2))%nat /\
  cstr outLine2
  = firstn (last_slash outLine2) (cstr outLine2)
      ++ cstr (skipn (last_slash outLine2) outLine2).
Proof.
  assert (H : (last_slash outLine2 <= length (cstr outLine2))%nat).
  { unfold last_slash.
    exact (slash_loop_bound LINE_BUF [] outLine2 0 (Nat.le_refl 0)). }
  split; [exact H |].
  rewrite cstr_skipn by exact H. now rewrite firstn_skipn.
Qed.

Lemma strip_list_first_terminator : forall pre fuel c post,
  (c = CR \/ c = LF) ->
  (forall x, In x pre -> x <> CR /\ x <> LF) ->
  (length pre < fuel)%nat ->
  strip_list fuel (pre ++ c :: post) = pre ++ NUL :: post.
Proof.
  induction pre as [| x pre IH]; intros fuel c post Hc Hpre Hf;
    (destruct fuel as [| fuel]; [simpl in Hf; lia |]); simpl.
  - destruct Hc as [-> | ->]; reflexivity.
  - destruct (Hpre x (or_introl eq_refl)) as [H1 H2].
    apply Ascii.eqb_neq in H1, H2. rewrite H1, H2. simpl.
    f_equal. apply IH; [exact Hc | | simpl in Hf; lia].
    intros y Hy. apply Hpre. now right.
Qed.

Lemma strip_list_clean : forall l fuel,
  (forall x, In x (firstn fuel l) -> x <> CR /\ x <> LF) ->
  strip_list fuel l = l.
Proof.
  induction l as [| x l IH]; intros fuel Hl; destruct fuel; simpl;
    try reflexivity.
  destruct (Hl x (or_introl eq_refl)) as [H1 H2].
  apply Ascii.eqb_neq in H1, H2. rewrite H1, H2. simpl.
  f_equal. apply IH. intros y Hy. apply Hl. now right.
Qed.

Lemma no_terminator_of_forallb (l : list ascii) :
  forallb (fun x => negb (Ascii.eqb x CR) && negb (Ascii.eqb x LF)) l = true ->
  forall x, In x l -> x <> CR /\ x <> LF.
Proof.
  intros H x Hx. rewrite forallb_forall in H. specialize (H x Hx).
  apply andb_true_iff in H. destruct H as [H1 H2].
  apply negb_true_iff in H1, H2.
  split; now apply Ascii.eqb_neq.
Qed.

(** X7.  The first loop of [addr2line] overwrites one byte at most,
    whatever the array [outLine1] holds: when the first carriage return or
    newline of the array lies within its first 1035 bytes, that byte
    becomes NUL and every other byte, also behind it, keeps its value; an
    array with no carriage return and no newline among its first 1035
    bytes is left as it is. *)
Theorem strip_eol_overwrites_first_terminator (outLine1 : list ascii) :
  (forall pre c post,
     outLine1 = pre ++ c :: post ->
     (c = CR \/ c = LF) ->
     (forall x, In x pre -> x <> CR /\ x <> LF) ->
     (length pre < LINE_BUF)%nat ->
     strip_eol outLine1 = pre ++ NUL :: post) /\
  ((forall x, In x (firstn LINE_BUF outLine1) -> x <> CR /\ x <> LF) ->
   strip_eol outLine1 = outLine1).
Proof.
  unfold strip_eol. split.
  - intros pre c post -> Hc Hpre Hlen.
    change (pre ++ c :: post) with ([] ++ (pre ++ c :: post)) at 1.
    change 0%nat with (length (@nil ascii)).
    rewrite strip_loop_split, app_nil_l.
    now apply strip_list_first_terminator.
  - intros Hclean.
    change outLine1 with ([] ++ outLine1) at 1.
    change 0%nat with (length (@nil ascii)).
    rewrite strip_loop_split, app_nil_l.
    now apply strip_list_clean.
Qed.

Lemma strip_eol_overwrites_first_terminator_witness :
  strip_eol DemoLong.buffer_with_terminator
  = str "A::foo(bool)" ++ NUL :: [LF; NUL] ++ repeat "X"%char 1018
      ++ [LF; LF] /\
  strip_eol DemoLong.buffer_without_terminator
  = DemoLong.buffer_without_terminator.
Proof.
  split.
  - apply (proj1 (strip_eol_overwrites_first_terminator
                    DemoLong.buffer_with_terminator)
             (str "A::foo(bool)") CR
             ([LF; NUL] ++ repeat "X"%char 1018 ++ [LF; LF])).
    + reflexivity.
    + now left.
    + apply no_terminator_of_forallb. vm_compute. reflexivity.
    + vm_compute. lia.
  - apply (proj2 (strip_eol_overwrites_first_terminator
                    DemoLong.buffer_without_terminator)).
    apply no_terminator_of_forallb. vm_compute. reflexivity.
Defined.

(** ** The resolver on every subprocess behaviour *)

Lemma last_slash_store (l buf : list ascii) :
  (length l < LINE_BUF)%nat ->
  last_slash (store l buf) = slash_scan 0 0 (cstr l).
Proof.
  intros Hl. unfold last_slash.
  change (store l buf) with ([] ++ store l buf).
  change 0%nat with (length (@nil ascii)) at 1 3.
  rewrite slash_loop_scan; rewrite ?app_nil_l, cstr_store.
  - reflexivity.
  - pose proof (cstr_length_le l). lia.
Qed.

Lemma slash_scan_le (s : list ascii) : (slash_scan 0 0 s <= length s)%nat.
Proof.
  destruct (slash_scan_spec s 0 0) as [[_ ->] | (a & b & -> & _ & ->)];
    [lia |].
  rewrite length_app. simpl. lia.
Qed.

(** What is printed for the location is a function of the line read. *)
Lemma cstr_last_slash_store_eq (l buf : list ascii) :
  (length l < LINE_BUF)%nat ->
  cstr (skipn (last_slash (store l buf)) (store l buf))
  = skipn (slash_scan 0 0 (cstr l)) (cstr l).
Proof.
  intros Hl. rewrite last_slash_store by exact Hl.
  rewrite cstr_skipn; rewrite cstr_store; [reflexivity |].
  apply slash_scan_le.
Qed.

Lemma resolved_record_of_lines (P : platform) lineNb addr l1 l2 b1 b2 :
  (length l1 < LINE_BUF)%nat -> (length l2 < LINE_BUF)%nat ->
  resolved_record P lineNb addr (strip_eol (store l1 b1)) (store l2 b2)
    (last_slash (store l2 b2))
  = str "[" ++ itos lineNb ++ str "] " ++ show_ptr P addr ++ str " in "
      ++ until_eol l1 ++ str " at "
      ++ skipn (slash_scan 0 0 (cstr l2)) (cstr l2).
Proof.
  intros H1 H2. unfold resolved_record.
  now rewrite cstr_strip_eol_store, cstr_last_slash_store_eq.
Qed.

Lemma fgets_store buf n fp :
  fgets buf n fp
  = match read_line (n - 1) (unread fp) with
    | ([], _) => None
    | (l, rest) => Some (store l buf, mkFILE (fileno fp) rest)
    end.
Proof. reflexivity. Qed.

Section ResolverMore.

Variable P : platform.

(** The loop does not depend on what the two buffers hold when it is
    entered. *)
Lemma addr2line_loop_buffers fuel : forall addr lineNb fp b1 b2 b1' b2' w,
  addr2line_loop P fuel addr lineNb fp b1 b2 w
  = addr2line_loop P fuel addr lineNb fp b1' b2' w.
Proof.
  induction fuel as [| fuel IH]; intros addr lineNb fp b1 b2 b1' b2' w;
    [reflexivity |].
  rewrite !addr2line_loop_S, !fgets_store.
  pose proof (read_line_length (LINE_BUF - 1 - 1) (unread fp)) as Hlen1.
  destruct (read_line (LINE_BUF - 1 - 1) (unread fp)) as [[| c1 l1] rest1];
    [reflexivity |].
  cbn [unread fileno]. rewrite !fgets_store. cbn [unread fileno].
  pose proof (read_line_length (LINE_BUF - 1 - 1) rest1) as Hlen2.
  destruct (read_line (LINE_BUF - 1 - 1) rest1) as [[| c2 l2] rest2];
    [reflexivity |].
  cbn [fst] in Hlen1, Hlen2.
  assert (H1 : (length (c1 :: l1) < LINE_BUF)%nat)
    by (unfold LINE_BUF in *; lia).
  assert (H2 : (length (c2 :: l2) < LINE_BUF)%nat)
    by (unfold LINE_BUF in *; lia).
  rewrite !(store_hd (c2 :: l2)) by discriminate.
  destruct (negb (Ascii.eqb (hd NUL (c2 :: l2)) QMARK)); [| reflexivity].
  unfold bind, write_cerr.
  rewrite !resolved_record_of_lines by assumption.
  apply IH.
Qed.

(** Every record the loop writes has the resolved form. *)
Lemma addr2line_loop_records fuel : forall addr lineNb fp b1 b2 w,
  (length (unread fp) < fuel)%nat ->
  exists r recs,
    addr2line_loop P fuel addr lineNb fp b1 b2 w
    = Returned r (grow recs [Pclose (fileno fp)] w) /\
    (r = 0 \/ r = 1) /\
    Forall (fun rec =>
              exists symbol location,
                rec = str "[" ++ itos lineNb ++ str "] " ++ show_ptr P addr
                        ++ str " in " ++ symbol ++ str " at " ++ location /\
                (forall c, In c symbol -> c <> NUL /\ c <> CR /\ c <> LF) /\
                ~ In SLASH location) recs.
Proof.
  induction fuel as [| fuel IH]; intros addr lineNb fp b1 b2 w Hf; [lia |].
  rewrite addr2line_loop_S.
  destruct (fgets b1 (LINE_BUF - 1) fp) as [[b1' fp1] |] eqn:E1.
  - destruct (fgets_Some _ _ _ _ _ E1)
      as (l1 & _ & _ & -> & Hno1 & Hl1 & Hlt1).
    destruct (fgets b2 (LINE_BUF - 1) fp1) as [[b2' fp2] |] eqn:E2.
    + destruct (fgets_Some _ _ _ _ _ E2)
        as (l2 & _ & _ & -> & Hno2 & Hl2 & Hlt2).
      destruct (negb (Ascii.eqb (nth 0 (store l2 b2) NUL) QMARK)).
      * unfold bind at 1. unfold write_cerr.
        match goal with
        | |- context [addr2line_loop P fuel addr lineNb fp2 ?x ?y ?w0] =>
            destruct (IH addr lineNb fp2 x y w0)
              as (r & recs & Hrun & Hr & Hrecs); [lia |]
        end.
        rewrite Hrun. exists r. eexists. split; [| split; [exact Hr |]].
        -- rewrite add_cerr_grow, grow_grow. simpl.
           now rewrite Hno2, Hno1.
        -- constructor; [| exact Hrecs].
           assert (H1 : (length l1 < LINE_BUF)%nat)
             by (unfold LINE_BUF in *; lia).
           assert (H2 : (length l2 < LINE_BUF)%nat)
             by (unfold LINE_BUF in *; lia).
           exists (until_eol l1).
           exists (cstr (skipn (last_slash (store l2 b2)) (store l2 b2))).
           split; [| split].
           ++ unfold resolved_record. now rewrite cstr_strip_eol_store.
           ++ apply until_eol_spec.
           ++ apply (cstr_last_slash_store l2 b2 H2).
      * exists 1, []. rewrite pclose_ret, Hno2, Hno1. auto.
    + exists 1, []. rewrite pclose_ret, Hno1. auto.
  - exists 0, []. rewrite pclose_ret. auto.
Qed.

Lemma addr2line_records program_name addr lineNb w :
  exists r recs,
    addr2line P program_name addr lineNb w
    = Returned r (grow recs (pipe_calls P (addr2line_cmd P program_name addr)
                               w) w) /\
    (r = 0 \/ r = 1) /\
    Forall (fun rec =>
              exists symbol location,
                rec = str "[" ++ itos lineNb ++ str "] " ++ show_ptr P addr
                        ++ str " in " ++ symbol ++ str " at " ++ location /\
                (forall c, In c symbol -> c <> NUL /\ c <> CR /\ c <> LF) /\
                ~ In SLASH location) recs.
Proof.
  unfold addr2line, pipe_calls, bind, popen.
  destruct (tool_stdout P (addr2line_cmd P program_name addr)) as [out |].
  - match goal with
    | |- context [addr2line_loop P ?f ?a ?n ?fp ?b1 ?b2 ?w0] =>
        destruct (addr2line_loop_records f a n fp b1 b2 w0)
          as (r & recs & Hrun & Hr & Hrecs); [simpl; lia |]
    end.
    rewrite Hrun. exists r, recs. split; [| split; assumption].
    rewrite add_pipe_event_grow, grow_grow. reflexivity.
  - exists 1, []. unfold ret. rewrite add_pipe_event_grow. auto.
Qed.

End ResolverMore.

(** X4.  Whatever the subprocess writes, [addr2line] returns 0 or 1, and
    every record it has written reads
    [[lineNb] addr in symbol at location] with the index and the address
    it was given, a symbol without NUL, carriage return or newline, and a
    location without '/'. *)
Theorem addr2line_writes_resolved_records_only (P : platform)
    (program_name : option (list ascii)) (addr : pointer) (lineNb : Z)
    (w : world) :
  exists r recs evs,
    addr2line P program_name addr lineNb w = Returned r (grow recs evs w) /\
    (r = 0 \/ r = 1) /\
    Forall (fun rec =>
              exists symbol location,
                rec = str "[" ++ itos lineNb ++ str "] " ++ show_ptr P addr
                        ++ str " in " ++ symbol ++ str " at " ++ location /\
                (forall c, In c symbol -> c <> NUL /\ c <> CR /\ c <> LF) /\
                ~ In SLASH location) recs.
Proof.
  destruct (addr2line_records P program_name addr lineNb w)
    as (r & recs & H). exists r, recs. eexists. exact H.
Qed.

(** X5.  The outcome of [addr2line] (its value, the records written, the
    calls on the pipe API) does not depend on what the uninitialised
    arrays [outLine1] and [outLine2] hold on entry. *)
Theorem addr2line_ignores_uninitialised_buffers (P : platform)
    (outLine1 outLine2 : list ascii)
    (program_name : option (list ascii)) (addr : pointer) (lineNb : Z)
    (w : world) :
  addr2line (with_uninit outLine1 outLine2 P) program_name addr lineNb w
  = addr2line P program_name addr lineNb w.
Proof.
  unfold addr2line, bind, popen.
  change (addr2line_cmd (with_uninit outLine1 outLine2 P))
    with (addr2line_cmd P).
  change (tool_stdout (with_uninit outLine1 outLine2 P))
    with (tool_stdout P).
  destruct (tool_stdout P (addr2line_cmd P program_name addr)) as [out |];
    [| reflexivity].
  change (addr2line_loop (with_uninit outLine1 outLine2 P))
    with (addr2line_loop P).
  apply addr2line_loop_buffers.
Qed.

(** ** The two early exits of the resolver *)

(** X2.  When [popen] returns NULL, [addr2line] returns 1 at once: it
    writes nothing and calls neither [fgets] nor [pclose]; the iteration of
    [print_stacktrace] for that frame then writes the fallback record. *)
Theorem popen_failure_prints_fallback (P : platform)
    (buffer : list pointer) (nptrs i : Z) (w : world) :
  0 <= i -> (Z.to_nat i < length buffer)%nat ->
  let addr := nth (Z.to_nat i) buffer 0 in
  let cmd := addr2line_cmd P (programName w) addr in
  tool_stdout P cmd = None ->
  addr2line P (programName w) addr (nptrs - 2 - i - 1) w
  = Returned 1 (grow [] [Popen cmd None] w) /\
  print_stacktrace_body P buffer (map (symbol_of P) buffer) nptrs i w
  = Returned tt
      (grow [str "[" ++ itos (nptrs - 2 - i - 1) ++ str "] "
               ++ symbol_of P addr ++ endl]
         [Popen cmd None] w).
Proof.
  intros Hi Hlen addr cmd Hout.
  pose proof (addr2line_popen_failed P (programName w) addr
                (nptrs - 2 - i - 1) w Hout) as Hrun.
  split; [exact Hrun |].
  rewrite body_is_frame_step by exact Hlen. fold addr.
  now rewrite (frame_step_of_addr2line P _ _ _ _ _ _ Hrun).
Qed.

Lemma popen_failure_prints_fallback_witness :
  addr2line DemoMore.unavailable (Some (str "./demo")) 4203079 0 Demo.started
  = Returned 1
      (grow [] [Popen (str "addr2line -C -f -e ./demo 0x402247") None]
         Demo.started) /\
  print_stacktrace_body DemoMore.unavailable Demo.stack
    (map Demo.symbol Demo.stack) 4 1 Demo.started
  = Returned tt
      (grow [str "[0] ./demo() [0x402247]" ++ endl]
         [Popen (str "addr2line -C -f -e ./demo 0x402247") None]
         Demo.started).
Proof.
  apply (popen_failure_prints_fallback DemoMore.unavailable Demo.stack 4 1
           Demo.started).
  - lia.
  - simpl. lia.
  - reflexivity.
Defined.

(** X3.  When the subprocess writes one line only (at most 1033
    characters, so that one [fgets] call takes it), the second [fgets]
    returns NULL and [addr2line] closes the pipe and returns 1 without
    writing; the iteration of [print_stacktrace] for that frame then writes
    the fallback record. *)
Theorem single_line_prints_fallback (P : platform)
    (buffer : list pointer) (nptrs i : Z) (w : world)
    (out : list ascii) :
  0 <= i -> (Z.to_nat i < length buffer)%nat ->
  let addr := nth (Z.to_nat i) buffer 0 in
  let cmd := addr2line_cmd P (programName w) addr in
  let fp := length (pipe_log w) in
  tool_stdout P cmd = Some out ->
  out <> [] -> read_line fgets_room out = (out, []) ->
  addr2line P (programName w) addr (nptrs - 2 - i - 1) w
  = Returned 1 (grow [] [Popen cmd (Some fp); Pclose fp] w) /\
  print_stacktrace_body P buffer (map (symbol_of P) buffer) nptrs i w
  = Returned tt
      (grow [str "[" ++ itos (nptrs - 2 - i - 1) ++ str "] "
               ++ symbol_of P addr ++ endl]
         [Popen cmd (Some fp); Pclose fp] w).
Proof.
  intros Hi Hlen addr cmd fp Hout Hne H1.
  assert (Hrun : addr2line P (programName w) addr (nptrs - 2 - i - 1) w
                 = Returned 1 (grow [] [Popen cmd (Some fp); Pclose fp] w)).
  { rewrite (addr2line_one_line P _ _ _ _ out out Hout H1 Hne).
    unfold pipe_calls. fold cmd. now rewrite Hout. }
  split; [exact Hrun |].
  rewrite body_is_frame_step by exact Hlen. fold addr.
  now rewrite (frame_step_of_addr2line P _ _ _ _ _ _ Hrun).
Qed.

Lemma single_line_prints_fallback_witness :
  addr2line DemoMore.one_line (Some (str "./demo")) 4203079 0 Demo.started
  = Returned 1
      (grow [] [Popen (str "addr2line -C -f -e ./demo 0x402247") (Some 0%nat);
                Pclose 0] Demo.started) /\
  print_stacktrace_body DemoMore.one_line Demo.stack
    (map Demo.symbol Demo.stack) 4 1 Demo.started
  = Returned tt
      (grow [str "[0] ./demo() [0x402247]" ++ endl]
         [Popen (str "addr2line -C -f -e ./demo 0x402247") (Some 0%nat);
          Pclose 0] Demo.started).
Proof.
  apply (single_line_prints_fallback DemoMore.one_line Demo.stack 4 1
           Demo.started (str "main (in demo) (main.cpp:6)" ++ endl)).
  - lia.
  - simpl. lia.
  - reflexivity.
  - discriminate.
  - vm_compute. reflexivity.
Defined.

(** ** The command line *)

(** X8.  The command written by [sprintf] fits the 512 bytes of
    [addr2line_cmd], its NUL included, whatever the program name, as long
    as [%p] renders the address in at most 235 characters: [%.256s] caps
    the program name at 256 characters. *)
Theorem addr2line_cmd_fits_buffer (P : platform)
    (program_name : option (list ascii)) (addr : pointer) :
  (length (fmt_p P addr) <= 235)%nat ->
  (length (addr2line_cmd P program_name addr) + 1 <= 512)%nat.
Proof.
  intros Hp. unfold addr2line_cmd. rewrite !length_app.
  change (length (str "addr2line -C -f -e ")) with 19%nat.
  change (length (str " ")) with 1%nat.
  assert (Hs : (length (fmt_s256 program_name) <= 256)%nat).
  { destruct program_name as [s |]; unfold fmt_s256.
    - rewrite length_firstn. lia.
    - change (length (str "(null)")) with 6%nat. lia. }
  lia.
Qed.

Lemma addr2line_cmd_fits_buffer_witness :
  (length (addr2line_cmd Demo.resolving
             (Some (repeat "d"%char 300)) 4203079%Z) + 1 <= 512)%nat.
Proof.
  apply (addr2line_cmd_fits_buffer Demo.resolving
           (Some (repeat "d"%char 300)) 4203079).
  vm_compute. lia.
Defined.

(** ** The stack walker on every stack *)

Lemma print_stacktrace_returns (P : platform) (calledFromSigInt : Z)
    (w : world) :
  symbols_available P = true ->
  exists recs evs,
    print_stacktrace P calledFromSigInt w = Returned tt (grow recs evs w) /\
    commands_launched evs
    = map (addr2line_cmd P (programName w)) (retained P calledFromSigInt) /\
    open_pipes (grow recs evs w) = open_pipes w.
Proof.
  intros Hs. rewrite print_stacktrace_is_walk by exact Hs.
  destruct (walk_returns P (retained P calledFromSigInt) w)
    as (recs & evs & Hw & Hc).
  destruct (walk_open_pipes P (retained P calledFromSigInt) w)
    as (w' & Hw' & Ho).
  exists recs, evs. split; [exact Hw |]. split; [exact Hc |].
  rewrite Hw in Hw'. inversion Hw' as [Heq]. now rewrite Heq.
Qed.

Lemma length_backtrace (P : platform) :
  length (backtrace P MAX_BACKTRACE_LINES)
  = Nat.min MAX_BACKTRACE_LINES (length (call_stack P)).
Proof. unfold backtrace. apply length_firstn. Qed.

(** X9.  On a stack too shallow to leave a frame after the exclusions (at
    most 3 addresses captured, 4 on the signal path) [print_stacktrace]
    returns without writing anything and without starting a subprocess. *)
Theorem print_stacktrace_shallow_stack (P : platform)
    (calledFromSigInt : Z) (w : world) :
  symbols_available P = true ->
  (length (call_stack P)
   <= if (calledFromSigInt =? 0)%Z then 3 else 4)%nat ->
  print_stacktrace P calledFromSigInt w = Returned tt w.
Proof.
  intros Hs Hlen. rewrite print_stacktrace_is_walk by exact Hs.
  unfold retained. rewrite skipn_all2; [reflexivity |].
  rewrite length_firstn, length_backtrace.
  destruct (calledFromSigInt =? 0); lia.
Qed.

Lemma print_stacktrace_shallow_stack_witness :
  print_stacktrace DemoMore.shallow 0 Demo.started
  = Returned tt Demo.started.
Proof.
  apply (print_stacktrace_shallow_stack DemoMore.shallow 0 Demo.started).
  - reflexivity.
  - simpl. lia.
Defined.

(** X10.  On a stack of 64 frames or more, only the 64 innermost addresses
    are captured: once [backtrace_symbols] has returned the fallback
    strings, [print_stacktrace] resolves the addresses at positions
    1 to 61 of the call stack (2 to 61 on the signal path), in that order,
    and no other; the frames beyond are never looked at. *)
Theorem print_stacktrace_deep_stack (P : platform)
    (calledFromSigInt : Z) (w : world) :
  symbols_available P = true ->
  (MAX_BACKTRACE_LINES <= length (call_stack P))%nat ->
  let first := if calledFromSigInt =? 0 then 1%nat else 2%nat in
  exists recs evs,
    print_stacktrace P calledFromSigInt w = Returned tt (grow recs evs w) /\
    commands_launched evs
    = map (addr2line_cmd P (programName w))
        (skipn first (firstn (MAX_BACKTRACE_LINES - 2) (call_stack P))) /\
    length (commands_launched evs) = (MAX_BACKTRACE_LINES - 2 - first)%nat.
Proof.
  intros Hs Hdeep first.
  destruct (print_stacktrace_returns P calledFromSigInt w Hs)
    as (recs & evs & Hrun & Hc & _).
  exists recs, evs. split; [exact Hrun |].
  assert (Hret : retained P calledFromSigInt
                 = skipn first
                     (firstn (MAX_BACKTRACE_LINES - 2) (call_stack P))).
  { unfold retained. fold first. rewrite length_backtrace.
    rewrite Nat.min_l by exact Hdeep.
    unfold backtrace. rewrite firstn_firstn.
    now rewrite Nat.min_l by lia. }
  rewrite Hc, Hret. split; [reflexivity |].
  rewrite length_map, length_skipn, length_firstn.
  rewrite Nat.min_l by lia. reflexivity.
Qed.

Lemma print_stacktrace_deep_stack_witness :
  exists recs evs,
    print_stacktrace DemoMore.deep_recursion 1 Demo.started
    = Returned tt (grow recs evs Demo.started) /\
    commands_launched evs
    = map (addr2line_cmd DemoMore.deep_recursion (Some (str "./demo")))
        (skipn 2 (firstn (MAX_BACKTRACE_LINES - 2)
                    (call_stack DemoMore.deep_recursion))) /\
    length (commands_launched evs) = 60%nat.
Proof.
  apply (print_stacktrace_deep_stack DemoMore.deep_recursion 1 Demo.started).
  - reflexivity.
  - vm_compute. lia.
Defined.

Section WalkerMore.

Variable P : platform.

(** Every record of an iteration starts with the index of its frame,
    whatever the subprocess does. *)
Lemma frame_step_records addr index w :
  exists recs,
    frame_step P addr index w
    = Returned tt
        (grow recs (pipe_calls P (addr2line_cmd P (programName w) addr) w) w)
    /\ Forall (fun rec => exists rest,
                 rec = str "[" ++ itos index ++ str "] " ++ rest) recs.
Proof.
  destruct (addr2line_records P (programName w) addr index w)
    as (r & recs & Hrun & _ & Hrecs).
  rewrite (frame_step_of_addr2line P _ _ _ _ _ _ Hrun).
  eexists. split; [reflexivity |].
  apply Forall_app. split.
  - eapply Forall_impl; [| exact Hrecs].
    intros rec (symbol & location & -> & _). eexists. reflexivity.
  - destruct (r =? 0); constructor; [| constructor].
    eexists. reflexivity.
Qed.

Lemma walk_groups : forall frames w,
  exists groups evs,
    walk P frames w = Returned tt (grow (concat groups) evs w) /\
    length groups = length frames /\
    forall k, (k < length frames)%nat ->
      Forall (fun rec => exists rest,
                rec = str "[" ++ itos (Z.of_nat (length frames - 1 - k))
                        ++ str "] " ++ rest)
             (nth k groups []).
Proof.
  induction frames as [| a frames IH]; intros w.
  - exists [], []. cbn [walk concat]. unfold ret. rewrite grow_nil.
    split; [reflexivity |]. split; [reflexivity |]. simpl. intros k Hk. lia.
  - destruct (frame_step_records a (Z.of_nat (length frames)) w)
      as (recs1 & H1 & Hrecs1).
    cbn [walk]. unfold bind. rewrite H1.
    match goal with
    | |- context [walk P frames ?w0] =>
        destruct (IH w0) as (groups & evs2 & H2 & Hlen & Hnth)
    end.
    rewrite H2, grow_grow. exists (recs1 :: groups). eexists.
    split; [reflexivity |]. split; [simpl; now rewrite Hlen |].
    intros [| k] Hk; cbn [length nth] in *.
    + replace (S (length frames) - 1 - 0)%nat with (length frames) by lia.
      exact Hrecs1.
    + replace (S (length frames) - 1 - S k)%nat
        with (length frames - 1 - k)%nat by lia.
      apply Hnth. lia.
Qed.

(** [CRITICAL] never comes back to the code after it. *)
Lemma CRITICAL_outcome s func fl n w :
  (symbols_available P = true /\
   exists w1,
     print_stacktrace P 0 w = Returned tt w1 /\
     CRITICAL P s func fl n w
     = Thrown (mkCriticalException s func fl n) w1) \/
  (symbols_available P = false /\
   CRITICAL P s func fl n w
   = Exited by_exit EXIT_FAILURE
       (add_cerr (str "backtrace_symbols: " ++ strerror_errno P ++ endl) w)).
Proof.
  destruct (symbols_available P) eqn:Hs.
  - left. split; [reflexivity |].
    destruct (print_stacktrace_returns P 0 w Hs) as (recs & evs & Hrun & _).
    eexists. split; [exact Hrun |].
    unfold CRITICAL, bind. now rewrite Hrun.
  - right. split; [reflexivity |].
    unfold CRITICAL, bind.
    rewrite print_stacktrace_no_symbols by exact Hs.
    now rewrite add_cerr_grow.
Qed.

End WalkerMore.

(** X11.  Whatever the subprocesses write, once [backtrace_symbols] has
    returned the fallback strings [print_stacktrace] returns, and what it
    has written is, frame after frame in the order of the retained frames,
    a group of records (possibly none, possibly several) that all start
    with the index of that frame: [D - 1] for the first retained frame,
    down to 0 for the last.  No record carries another index, and the
    indices never go up. *)
Theorem print_stacktrace_records_follow_frames (P : platform)
    (calledFromSigInt : Z) (w : world) :
  symbols_available P = true ->
  let D := length (retained P calledFromSigInt) in
  exists groups evs,
    print_stacktrace P calledFromSigInt w
    = Returned tt (grow (concat groups) evs w) /\
    length groups = D /\
    forall k, (k < D)%nat ->
      Forall (fun rec => exists rest,
                rec = str "[" ++ itos (Z.of_nat (D - 1 - k)) ++ str "] "
                        ++ rest)
             (nth k groups []).
Proof.
  intros Hs D. rewrite print_stacktrace_is_walk by exact Hs.
  apply walk_groups.
Qed.

Lemma print_stacktrace_records_follow_frames_witness :
  exists groups evs,
    print_stacktrace Demo.two_pairs 0 Demo.started
    = Returned tt (grow (concat groups) evs Demo.started) /\
    length groups = 1%nat /\
    forall k, (k < 1)%nat ->
      Forall (fun rec => exists rest,
                rec = str "[" ++ itos (Z.of_nat (1 - 1 - k)) ++ str "] "
                        ++ rest)
             (nth k groups []).
Proof.
  apply (print_stacktrace_records_follow_frames Demo.two_pairs 0
           Demo.started).
  reflexivity.
Defined.

(** ** The ways out *)

(** X12.  [CRITICAL] never returns to the statement after it: when
    [backtrace_symbols] gives the strings it throws, after the trace, a
    [CriticalException] holding exactly the message, function, file and
    line it was expanded with; otherwise it ends the process in
    [print_stacktrace]. *)
Theorem CRITICAL_throws_or_exits (P : platform) (s func fl : list ascii)
    (n : Z) (w : world) :
  (symbols_available P = true /\
   exists w1,
     print_stacktrace P 0 w = Returned tt w1 /\
     CRITICAL P s func fl n w
     = Thrown (mkCriticalException s func fl n) w1) \/
  (symbols_available P = false /\
   CRITICAL P s func fl n w
   = Exited by_exit EXIT_FAILURE
       (add_cerr (str "backtrace_symbols: " ++ strerror_errno P ++ endl) w)).
Proof. apply CRITICAL_outcome. Qed.

(** X13.  The signal handler ends the process with status EXIT_FAILURE for
    every signal number and on every platform; it never returns and never
    throws, and it leaves no subprocess stream open. *)
Theorem posix_signal_handler_always_fails (P : platform) (sig : Z)
    (w : world) :
  exists k w',
    posix_signal_handler P sig w = Exited k EXIT_FAILURE w' /\
    open_pipes w' = open_pipes w /\
    programName w' = programName w /\
    sig_table w' = sig_table w.
Proof.
  unfold posix_signal_handler, bind.
  destruct (symbols_available P) eqn:Hs.
  - destruct (print_stacktrace_returns P 1 w Hs)
      as (recs & evs & Hrun & _ & Ho).
    rewrite Hrun.
    repeat match goal with
           | |- context [if ?b then _ else _] => destruct b
           end;
      (eexists; eexists; split; [reflexivity |]);
      (split; [exact Ho | split; reflexivity]).
  - rewrite print_stacktrace_no_symbols by exact Hs.
    rewrite <- add_cerr_grow.
    eexists. eexists. split; [reflexivity |]. repeat split.
Qed.

(** X14.  No [CriticalException] leaves the protected region: whatever the
    body does, the region never ends by a throw.  A body that returns lets
    the region return in the very state the body left, with nothing
    written by the region, and a body that ends the process ends the
    region the same way. *)
Theorem exception_boundary_contains_exceptions
    (argv0 : option (list ascii)) (body : M unit) (w : world) :
  exists w_init,
    init_exceptions argv0 w = Returned tt w_init /\
    (forall e w', BEGIN_END_EXCEPTIONS argv0 body w <> Thrown e w') /\
    (forall w', body w_init = Returned tt w' ->
                BEGIN_END_EXCEPTIONS argv0 body w = Returned tt w') /\
    (forall k status w', body w_init = Exited k status w' ->
                BEGIN_END_EXCEPTIONS argv0 body w = Exited k status w').
Proof.
  eexists. split; [reflexivity |].
  unfold BEGIN_END_EXCEPTIONS, bind, try_catch.
  cbv beta iota delta [init_exceptions set_signal_handler signal bind].
  repeat split.
  - intros e w'.
    match goal with
    | |- context [body ?w0] => destruct (body w0)
    end; discriminate.
  - intros w' H. now rewrite H.
  - intros k status w' H. now rewrite H.
Qed.

Lemma exception_boundary_contains_exceptions_witness :
  BEGIN_END_EXCEPTIONS (Some (str "./demo")) (ret tt) initial_world
  = Returned tt Demo.started /\
  BEGIN_END_EXCEPTIONS (Some (str "./demo")) (_Exit 3) initial_world
  = Exited by__Exit 3 Demo.started.
Proof.
  destruct (exception_boundary_contains_exceptions (Some (str "./demo"))
              (ret tt) initial_world) as (w1 & H1 & _ & Hret & _).
  destruct (exception_boundary_contains_exceptions (Some (str "./demo"))
              (_Exit 3) initial_world) as (w2 & H2 & _ & _ & Hexit).
  inversion H1; subst w1. inversion H2; subst w2.
  split; [apply Hret | apply Hexit]; reflexivity.
Defined.

(** X15.  A [CRITICAL] in a region opened with [argv0]: the resolver
    commands of the trace are built with [argv0], the program name that
    [init_exceptions] recorded, for the frames retained on the non-signal
    path; the line of the error is the last record written, and the
    process ends with EXIT_FAILURE. *)
Theorem critical_in_boundary (P : platform) (argv0 : option (list ascii))
    (m f fl : list ascii) (n : Z) (w : world) :
  symbols_available P = true ->
  exists recs evs w',
    BEGIN_END_EXCEPTIONS argv0 (CRITICAL P m f fl n) w
    = Exited by_exit EXIT_FAILURE w' /\
    cerr w' = cerr w ++ recs
                ++ [(m ++ str " (in " ++ f ++ str " at " ++ fl ++ str ":"
                       ++ itos n ++ str ")") ++ endl] /\
    pipe_log w' = pipe_log w ++ evs /\
    commands_launched evs = map (addr2line_cmd P argv0) (retained P 0) /\
    programName w' = argv0.
Proof.
  intros Hs.
  unfold BEGIN_END_EXCEPTIONS, bind, try_catch.
  cbv beta iota delta [init_exceptions set_signal_handler signal bind].
  match goal with
  | |- context [CRITICAL P m f fl n ?w0] => set (w_init := w0)
  end.
  destruct (print_stacktrace_returns P 0 w_init Hs)
    as (recs & evs & Hrun & Hc & _).
  unfold CRITICAL, bind. rewrite Hrun.
  exists recs, evs. eexists. split; [reflexivity |].
  cbn [throw END_EXCEPTIONS bind write_cerr exit cerr pipe_log programName
       add_cerr grow].
  split; [now rewrite <- app_assoc |].
  split; [reflexivity |]. split; [exact Hc | reflexivity].
Qed.

Lemma critical_in_boundary_witness :
  exists recs evs w',
    BEGIN_END_EXCEPTIONS (Some (str "./demo"))
      (CRITICAL Demo.mixed (str "Foo crashed") (str "foo") (str "main.cpp")
         37) initial_world
    = Exited by_exit EXIT_FAILURE w' /\
    cerr w' = [] ++ recs
                ++ [(str "Foo crashed" ++ str " (in " ++ str "foo"
                       ++ str " at " ++ str "main.cpp" ++ str ":"
                       ++ itos 37 ++ str ")") ++ endl] /\
    pipe_log w' = [] ++ evs /\
    commands_launched evs
    = map (addr2line_cmd Demo.mixed (Some (str "./demo")))
        (retained Demo.mixed 0) /\
    programName w' = Some (str "./demo").
Proof.
  apply (critical_in_boundary Demo.mixed (Some (str "./demo"))
           (str "Foo crashed") (str "foo") (str "main.cpp") 37
           initial_world).
  reflexivity.
Defined.

(** ** The demo program *)

(** X16.  [A::Test] never gets to [bar]: it does exactly what the
    [CRITICAL("Foo crashed")] of [foo] at line 37 does, so the only error
    it can throw is that one and "Bar crashed" is never raised. *)
Theorem Test_stops_in_foo (P : platform) (FILE_ : list ascii) (w : world) :
  Main.Test P FILE_ w
  = CRITICAL P (str "Foo crashed") (str "foo") FILE_ 37 w.
Proof.
  unfold Main.Test, Main.foo, bind.
  destruct (CRITICAL_outcome P (str "Foo crashed") (str "foo") FILE_ 37 w)
    as [[_ (w1 & _ & H)] | [_ H]]; now rewrite H.
Qed.

(** X17.  When [generateRandomCrash] returns, [main] ends with
    EXIT_FAILURE after the line [Foo crashed (in foo at FILE:37)], the last
    one written; it does not get to [exit(EXIT_SUCCESS)]. *)
Theorem main_ends_with_failure (P : platform) (FILE_ : list ascii)
    (argv0 : option (list ascii)) (generateRandomCrash : M unit)
    (w w_init w_crash : world) :
  symbols_available P = true ->
  init_exceptions argv0 w = Returned tt w_init ->
  generateRandomCrash w_init = Returned tt w_crash ->
  exists recs evs,
    Main.main P FILE_ argv0 generateRandomCrash w
    = Exited by_exit EXIT_FAILURE
        (grow (recs ++ [str "Foo crashed (in foo at " ++ FILE_
                          ++ str ":37)" ++ endl]) evs w_crash).
Proof.
  intros Hs Hinit Hcrash.
  destruct (print_stacktrace_returns P 0 w_crash Hs)
    as (recs & evs & Hrun & _).
  exists recs, evs.
  unfold Main.main, BEGIN_END_EXCEPTIONS, bind, try_catch.
  rewrite Hinit, Hcrash.
  change (Main.Test P FILE_ w_crash)
    with (Main.Test P FILE_ w_crash).
  unfold Main.Test, Main.foo, CRITICAL, bind. rewrite Hrun.
  cbn [throw END_EXCEPTIONS bind write_cerr exit].
  unfold bind. rewrite add_cerr_grow, grow_grow, app_nil_r.
  assert (Hline : toStr (mkCriticalException (str "Foo crashed") (str "foo")
                           FILE_ 37) ++ endl
                  = str "Foo crashed (in foo at " ++ FILE_ ++ str ":37)"
                      ++ endl).
  { unfold toStr. cbn [message funcName file line].
    change (itos 37) with (str "37"). simpl. now rewrite <- app_assoc. }
  now rewrite Hline.
Qed.

Lemma main_ends_with_failure_witness :
  exists recs evs,
    Main.main Demo.mixed (str "main.cpp") (Some (str "./demo")) (ret tt)
      initial_world
    = Exited by_exit EXIT_FAILURE
        (grow (recs ++ [str "Foo crashed (in foo at " ++ str "main.cpp"
                          ++ str ":37)" ++ endl]) evs Demo.started).
Proof.
  apply (main_ends_with_failure Demo.mixed (str "main.cpp")
           (Some (str "./demo")) (ret tt) initial_world Demo.started
           Demo.started); reflexivity.
Defined.
